(** * proxyconfig: the proxy / trust-bundle reconciler

    A shallow embedding of [pkg/controller/proxyconfig/controller.go] and the
    properties of its reconciliation loop.

    The controller talks to three collaborators: the object-store client
    ([r.client]), the status manager ([r.status]) and the validation and
    status helpers of the package that live in other files.  The embedding
    threads a [World] through the code: the object store together with the
    list of calls made on the collaborators, oldest first.  Logging
    ([log.Printf], [log.Println]) is not modelled. *)

From stdpp Require Import gmap strings list fin_maps.
From Stdlib Require Import Strings.Byte.



(** ** Data model *)

(** [types.NamespacedName]; a [reconcile.Request] embeds exactly one. *)
Record NamespacedName := {
  nn_Namespace : string;
  nn_Name : string;
}.

Definition Request := NamespacedName.

#[global] Instance NamespacedName_eq_dec : EqDecision NamespacedName.
Proof. solve_decision. Defined.

#[global] Instance NamespacedName_countable : Countable NamespacedName :=
  inj_countable'
    (fun k => (nn_Namespace k, nn_Name k))
    (fun p => {| nn_Namespace := p.1; nn_Name := p.2 |})
    (fun k => match k with Build_NamespacedName _ _ => eq_refl end).

(** [String()] of a namespaced name, which is how [%v] prints a request. *)
Definition nn_String (k : NamespacedName) : string :=
  nn_Namespace k +:+ "/" +:+ nn_Name k.

(** [configv1.ConfigMapNameReference] *)
Record ConfigMapNameReference := {
  ref_Name : string;
}.

(** [configv1.ProxySpec] *)
Record ProxySpec := {
  HTTPProxy : string;
  HTTPSProxy : string;
  NoProxy : string;
  ReadinessEndpoints : list string;
  TrustedCA : ConfigMapNameReference;
}.

(** [configv1.Proxy]: the object's name and its spec. *)
Record Proxy := {
  proxy_Name : string;
  proxy_Spec : ProxySpec;
}.

(** [corev1.ConfigMap]: identity and the [Data] map.  Reading a key that is
    absent from a Go map yields the empty string. *)
Record ConfigMap := {
  cm_Namespace : string;
  cm_Name : string;
  cm_Data : gmap string string;
}.

Definition Data_at (key : string) (c : ConfigMap) : string :=
  default EmptyString (cm_Data c !! key).

(** [configv1.Infrastructure] and [configv1.Network] are fetched only to be
    handed to [syncProxyStatus]; this file never looks inside them. *)
Record Infrastructure := { infra_Name : string }.
Record Network := { net_Name : string }.

(** [reconcile.Result]; the controller only ever returns the zero value. *)
Record Result := { Requeue : bool }.
Definition Result_zero : Result := {| Requeue := false |}.

(** ** Errors *)

Inductive StatusReason := ReasonNotFound | ReasonAlreadyExists | ReasonUnknown.

Record error := {
  err_reason : StatusReason;
  Error : string;
}.

(** [apierrors.IsNotFound] *)
Definition IsNotFound (err : error) : bool :=
  match err_reason err with
  | ReasonNotFound => true
  | _ => false
  end.

(** [fmt.Errorf] builds a plain error: it is never a not-found error. *)
Definition Errorf (text : string) : error :=
  {| err_reason := ReasonUnknown; Error := text |}.

(** ** Names (package [names]) *)

(** The values are the ones the comments of the controller spell out: the
    proxy is the cluster-scoped object named cluster, source ConfigMaps live
    in namespace openshift-config, and the derived ConfigMap is
    openshift-config-managed/trusted-ca-bundle with data key ca-bundle.crt. *)
Definition PROXY_CONFIG : string := "cluster".
Definition ADDL_TRUST_BUNDLE_CONFIGMAP_NS : string := "openshift-config".
Definition TRUSTED_CA_BUNDLE_CONFIGMAP : string := "trusted-ca-bundle".
Definition TRUSTED_CA_BUNDLE_CONFIGMAP_NS : string := "openshift-config-managed".
Definition TRUSTED_CA_BUNDLE_CONFIGMAP_KEY : string := "ca-bundle.crt".

Definition names_Proxy : NamespacedName :=
  {| nn_Namespace := EmptyString; nn_Name := PROXY_CONFIG |}.

Definition names_TrustedCABundleConfigMap : NamespacedName :=
  {| nn_Namespace := TRUSTED_CA_BUNDLE_CONFIGMAP_NS;
     nn_Name := TRUSTED_CA_BUNDLE_CONFIGMAP |}.

(** ** The object store *)

(** A key of the store either holds an object or is marked unreadable, in
    which case every access to it fails with a plain (not not-found) error.
    An object's identity is its key, so what is stored is the payload. *)
Inductive Slot (A : Type) :=
| Stored (a : A)
| Unreadable (msg : string).
Arguments Stored {A} a.
Arguments Unreadable {A} msg.

Record Store := {
  st_proxies : gmap NamespacedName (Slot ProxySpec);
  st_configmaps : gmap NamespacedName (Slot (gmap string string));
  st_infrastructures : gmap NamespacedName (Slot unit);
  st_networks : gmap NamespacedName (Slot unit);
  (* when set, every Create and Update is refused with this message *)
  st_write_fault : option string;
  (* the local file system, read by the trust-bundle helpers *)
  st_files : gmap string (list byte);
}.

Definition set_configmaps (f : gmap NamespacedName (Slot (gmap string string)) ->
                               gmap NamespacedName (Slot (gmap string string)))
    (st : Store) : Store :=
  {| st_proxies := st_proxies st;
     st_configmaps := f (st_configmaps st);
     st_infrastructures := st_infrastructures st;
     st_networks := st_networks st;
     st_write_fault := st_write_fault st;
     st_files := st_files st |}.

Inductive Kind := KProxy | KConfigMap | KInfrastructure | KNetwork.

Definition Kind_String (k : Kind) : string :=
  match k with
  | KProxy => "proxies.config.openshift.io"
  | KConfigMap => "configmaps"
  | KInfrastructure => "infrastructures.config.openshift.io"
  | KNetwork => "networks.config.openshift.io"
  end.

Definition NewNotFound (k : Kind) (key : NamespacedName) : error :=
  {| err_reason := ReasonNotFound;
     Error := Kind_String k +:+ " '" +:+ nn_Name key +:+ "' not found" |}.

Definition NewAlreadyExists (k : Kind) (key : NamespacedName) : error :=
  {| err_reason := ReasonAlreadyExists;
     Error := Kind_String k +:+ " '" +:+ nn_Name key +:+ "' already exists" |}.

(** What [client.Get] finds under a key. *)
Definition fetch {A : Type} (k : Kind) (tbl : gmap NamespacedName (Slot A))
    (key : NamespacedName) : A + error :=
  match tbl !! key with
  | Some (Stored a) => inl a
  | Some (Unreadable msg) => inr (Errorf msg)
  | None => inr (NewNotFound k key)
  end.

Definition key_of (obj : ConfigMap) : NamespacedName :=
  {| nn_Namespace := cm_Namespace obj; nn_Name := cm_Name obj |}.

(** [client.Create] of a ConfigMap: refused when the key is taken. *)
Definition store_Create (obj : ConfigMap) (st : Store) : option error * Store :=
  match st_write_fault st with
  | Some msg => (Some (Errorf msg), st)
  | None =>
    match st_configmaps st !! key_of obj with
    | Some (Stored _) => (Some (NewAlreadyExists KConfigMap (key_of obj)), st)
    | Some (Unreadable msg) => (Some (Errorf msg), st)
    | None => (None, set_configmaps (insert (key_of obj) (Stored (cm_Data obj))) st)
    end
  end.

(** [client.Update] of a ConfigMap: refused when the object does not exist. *)
Definition store_Update (obj : ConfigMap) (st : Store) : option error * Store :=
  match st_write_fault st with
  | Some msg => (Some (Errorf msg), st)
  | None =>
    match st_configmaps st !! key_of obj with
    | Some (Stored _) => (None, set_configmaps (insert (key_of obj) (Stored (cm_Data obj))) st)
    | Some (Unreadable msg) => (Some (Errorf msg), st)
    | None => (Some (NewNotFound KConfigMap (key_of obj)), st)
    end
  end.

(** ** Calls on the collaborators *)

(** [statusmanager.StatusLevel]; the controller reports at one level. *)
Inductive StatusLevel := ProxyConfig.

Inductive Call :=
| CallGet (k : Kind) (key : NamespacedName)
| CallCreate (obj : ConfigMap)
| CallUpdate (obj : ConfigMap)
| CallSetDegraded (level : StatusLevel) (reason message : string)
| CallSetNotDegraded (level : StatusLevel)
| CallValidateProxyConfig (spec : ProxySpec)
| CallValidateTrustedCA (cfgMapName : string)
| CallValidateSystemTrustBundle (path : string)
| CallSyncProxyStatus (proxy : Proxy).

Definition is_client (c : Call) : bool :=
  match c with
  | CallGet _ _ | CallCreate _ | CallUpdate _ => true
  | _ => false
  end.

Definition is_validator (c : Call) : bool :=
  match c with
  | CallValidateProxyConfig _ => true
  | _ => false
  end.

Definition is_system_bundle (c : Call) : bool :=
  match c with
  | CallValidateSystemTrustBundle _ => true
  | _ => false
  end.

Record World := {
  w_store : Store;
  w_calls : list Call;
}.

(** The world in which an invocation starts: nothing called yet. *)
Definition init (st : Store) : World := {| w_store := st; w_calls := [] |}.

(** ** The state monad of the helpers *)

Definition M (A : Type) : Type := World -> A * World.

Definition ret {A} (a : A) : M A := fun w => (a, w).

Definition bind {A B} (m : M A) (k : A -> M B) : M B :=
  fun w => let (a, w') := m w in k a w'.

Notation "'let!' x := m 'in' k" := (bind m (fun x => k))
  (at level 10, x name, m at level 200, k at level 200).
Notation "'do!' m 'in' k" := (bind m (fun _ => k))
  (at level 10, m at level 200, k at level 200).

(** Record a call. *)
Definition call (c : Call) : M unit :=
  fun w => (tt, {| w_store := w_store w; w_calls := w_calls w ++ [c] |}).

(** Read the store. *)
Definition read {A} (f : Store -> A) : M A :=
  fun w => (f (w_store w), w).

(** Run a store transition. *)
Definition update {A} (f : Store -> A * Store) : M A :=
  fun w => let (a, st) := f (w_store w) in
           (a, {| w_store := st; w_calls := w_calls w |}).

(** [r.client.Get] at each object type the controller fetches. *)
Definition client_Get_Proxy (key : NamespacedName) : M (Proxy + error) :=
  do! call (CallGet KProxy key) in
  read (fun st =>
    match fetch KProxy (st_proxies st) key with
    | inl spec => inl {| proxy_Name := nn_Name key; proxy_Spec := spec |}
    | inr err => inr err
    end).

Definition client_Get_ConfigMap (key : NamespacedName) : M (ConfigMap + error) :=
  do! call (CallGet KConfigMap key) in
  read (fun st =>
    match fetch KConfigMap (st_configmaps st) key with
    | inl data => inl {| cm_Namespace := nn_Namespace key;
                         cm_Name := nn_Name key;
                         cm_Data := data |}
    | inr err => inr err
    end).

Definition client_Get_Infrastructure (key : NamespacedName) : M (Infrastructure + error) :=
  do! call (CallGet KInfrastructure key) in
  read (fun st =>
    match fetch KInfrastructure (st_infrastructures st) key with
    | inl _ => inl {| infra_Name := nn_Name key |}
    | inr err => inr err
    end).

Definition client_Get_Network (key : NamespacedName) : M (Network + error) :=
  do! call (CallGet KNetwork key) in
  read (fun st =>
    match fetch KNetwork (st_networks st) key with
    | inl _ => inl {| net_Name := nn_Name key |}
    | inr err => inr err
    end).

Definition client_Create (obj : ConfigMap) : M (option error) :=
  do! call (CallCreate obj) in update (store_Create obj).

Definition client_Update (obj : ConfigMap) : M (option error) :=
  do! call (CallUpdate obj) in update (store_Update obj).

(** [r.status.SetDegraded] and [r.status.SetNotDegraded] *)
Definition SetDegraded (level : StatusLevel) (reason message : string) : M unit :=
  call (CallSetDegraded level reason message).

Definition SetNotDegraded (level : StatusLevel) : M unit :=
  call (CallSetNotDegraded level).

(** ** Early returns of [Reconcile] *)

(** What an invocation hands back: [(reconcile.Result, error)]. *)
Definition Outcome : Type := Result * option error.

(** A block of [Reconcile] either falls through with a value or returns from
    the whole function. *)
Definition Body (A : Type) : Type := World -> (A + Outcome) * World.

Definition proceed {A} (a : A) : Body A := fun w => (inl a, w).

Definition Return {A} (res : Result) (err : option error) : Body A :=
  fun w => (inr (res, err), w).

Definition lift {A} (m : M A) : Body A :=
  fun w => let (a, w') := m w in (inl a, w').

Definition bindB {A B} (m : Body A) (k : A -> Body B) : Body B :=
  fun w =>
    match m w with
    | (inl a, w') => k a w'
    | (inr out, w') => (inr out, w')
    end.

Notation "'let?' x := m 'in' k" := (bindB m (fun x => k))
  (at level 10, x name, m at level 200, k at level 200).
Notation "'do?' m 'in' k" := (bindB m (fun _ => k))
  (at level 10, m at level 200, k at level 200).

Definition run (b : Body Outcome) : M Outcome :=
  fun w =>
    match b w with
    | (inl out, w') => (out, w')
    | (inr out, w') => (out, w')
    end.

(** ** The spec predicates ([isSpec...Set]) *)

Definition len (s : string) : nat := String.length s.

Definition isSpecHTTPProxySet (proxyConfig : ProxySpec) : bool :=
  (0 <? len (HTTPProxy proxyConfig)).

Definition isSpecHTTPSProxySet (proxyConfig : ProxySpec) : bool :=
  (0 <? len (HTTPSProxy proxyConfig)).

Definition isSpecNoProxySet (proxyConfig : ProxySpec) : bool :=
  (0 <? len (NoProxy proxyConfig)).

Definition isSpecReadinessEndpointsSet (proxyConfig : ProxySpec) : bool :=
  (0 <? length (ReadinessEndpoints proxyConfig)).

Definition isSpecTrustedCASet (proxyConfig : ProxySpec) : bool :=
  (0 <? len (ref_Name (TrustedCA proxyConfig))).

(** [configMapsEqual] *)
Definition configMapsEqual (key : string) (a b : ConfigMap) : bool :=
  bool_decide (Data_at key a = Data_at key b).

(** The two [range] loops of [mergeTrustBundlesToConfigMap]: append the
    bytes of [src] to [dst] one at a time. *)
Definition append_each (dst src : list byte) : list byte :=
  fold_left (fun combined d => combined ++ [d]) src dst.

(** ** Methods of the package defined outside controller.go *)

(** [ValidateProxyConfig], [validateTrustedCA], [validateTrustBundle] and
    [validateSystemTrustBundle] (validation) and [syncProxyStatus] (status)
    are methods of [ReconcileProxyConfig] whose bodies are in other files,
    and [CLUSTER_CONFIG] and [SYSTEM_TRUST_BUNDLE] are constants of package
    [names] that no comment here spells out.  The controller is verified for
    every choice of them.  The validators read the store and the file
    system; [validateTrustBundle] only parses its argument, and of its three
    results the controller looks at the error alone; [syncProxyStatus] may
    write to the store. *)
Class Externals := {
  CLUSTER_CONFIG : string;
  SYSTEM_TRUST_BUNDLE : string;
  ext_ValidateProxyConfig : ProxySpec -> Store -> option error;
  ext_validateTrustedCA : string -> Store -> (list byte * list byte) + error;
  validateTrustBundle : ConfigMap -> option error;
  ext_validateSystemTrustBundle : string -> Store -> list byte + error;
  ext_syncProxyStatus :
    Proxy -> Infrastructure -> Network -> ConfigMap -> Store -> option error * Store;
}.

Section Controller.
Context {ext : Externals}.

Definition ValidateProxyConfig (spec : ProxySpec) : M (option error) :=
  do! call (CallValidateProxyConfig spec) in
  read (ext_ValidateProxyConfig spec).

Definition validateTrustedCA (cfgMapName : string) : M ((list byte * list byte) + error) :=
  do! call (CallValidateTrustedCA cfgMapName) in
  read (ext_validateTrustedCA cfgMapName).

Definition validateSystemTrustBundle (path : string) : M (list byte + error) :=
  do! call (CallValidateSystemTrustBundle path) in
  read (ext_validateSystemTrustBundle path).

Definition syncProxyStatus (proxy : Proxy) (infra : Infrastructure) (network : Network)
    (cluster : ConfigMap) : M (option error) :=
  do! call (CallSyncProxyStatus proxy) in
  update (ext_syncProxyStatus proxy infra network cluster).

(** [mergeTrustBundlesToConfigMap] *)
Definition mergeTrustBundlesToConfigMap (additionalData systemData : list byte)
    : ConfigMap + error :=
  if length additionalData =? 0 then
    inr (Errorf "failed to merge ca bundles, additional trust bundle is empty")
  else if length systemData =? 0 then
    inr (Errorf "failed to merge ca bundles, system trust bundle is empty")
  else
    let combinedTrustData := [] in
    let combinedTrustData := append_each combinedTrustData additionalData in
    let combinedTrustData := append_each combinedTrustData systemData in
    let mergedCfgMap :=
      {| cm_Namespace := TRUSTED_CA_BUNDLE_CONFIGMAP_NS;
         cm_Name := TRUSTED_CA_BUNDLE_CONFIGMAP;
         cm_Data := {[ TRUSTED_CA_BUNDLE_CONFIGMAP_KEY :=
                        String.string_of_list_byte combinedTrustData ]} |} in
    match validateTrustBundle mergedCfgMap with
    | Some err =>
      inr (Errorf ("failed to validate merged configmap '" +:+ cm_Namespace mergedCfgMap
                   +:+ "/" +:+ cm_Name mergedCfgMap +:+ "': " +:+ Error err))
    | None => inl mergedCfgMap
    end.

(** [syncTrustedCABundle] *)
Definition syncTrustedCABundle (trustedCABundle : ConfigMap) : M (option error) :=
  let currentCfgMap :=
    {| cm_Namespace := EmptyString; cm_Name := EmptyString; cm_Data := ∅ |} in
  let! got := client_Get_ConfigMap names_TrustedCABundleConfigMap in
  let! r :=
       match got with
       | inr err =>
         if negb (IsNotFound err) then
           ret (inr (Errorf ("failed to get trusted CA bundle configmap '"
                             +:+ cm_Namespace trustedCABundle +:+ "/"
                             +:+ cm_Name trustedCABundle +:+ "': " +:+ Error err)))
         else
           let! created := client_Create trustedCABundle in
           match created with
           | Some err =>
             ret (inr (Errorf ("failed to create trusted CA bundle configmap '"
                               +:+ cm_Namespace trustedCABundle +:+ "/"
                               +:+ cm_Name trustedCABundle +:+ "': " +:+ Error err)))
           | None => ret (inl currentCfgMap)
           end
       | inl fetched => ret (inl fetched)
       end in
  match r with
  | inr err => ret (Some err)
  | inl currentCfgMap =>
    if negb (configMapsEqual TRUSTED_CA_BUNDLE_CONFIGMAP_KEY currentCfgMap trustedCABundle) then
      let! updated := client_Update trustedCABundle in
      match updated with
      | Some err =>
        ret (Some (Errorf ("failed to update trusted CA bundle configmap '"
                           +:+ cm_Namespace trustedCABundle +:+ "/"
                           +:+ cm_Name trustedCABundle +:+ "': " +:+ Error err)))
      | None => ret None
      end
    else ret None
  end.

(** [generateSystemTrustBundle] *)
Definition generateSystemTrustBundle : M (ConfigMap + error) :=
  let! r := validateSystemTrustBundle SYSTEM_TRUST_BUNDLE in
  match r with
  | inr err =>
    ret (inr (Errorf ("failed to validate trust bundle " +:+ SYSTEM_TRUST_BUNDLE
                      +:+ ": " +:+ Error err)))
  | inl bundleData =>
    ret (inl {| cm_Namespace := TRUSTED_CA_BUNDLE_CONFIGMAP_NS;
                cm_Name := TRUSTED_CA_BUNDLE_CONFIGMAP;
                cm_Data := {[ TRUSTED_CA_BUNDLE_CONFIGMAP_KEY :=
                               String.string_of_list_byte bundleData ]} |})
  end.

(** [configMapIsProxyTrustedCA] *)
Definition configMapIsProxyTrustedCA (cfgMapName : string) : M (option error) :=
  let! got := client_Get_Proxy names_Proxy in
  match got with
  | inr err =>
    ret (Some (Errorf ("failed to get proxy '" +:+ PROXY_CONFIG +:+ "': " +:+ Error err)))
  | inl proxyConfig =>
    if negb (bool_decide (ref_Name (TrustedCA (proxy_Spec proxyConfig)) = cfgMapName)) then
      ret (Some (Errorf ("configmap name '" +:+ cfgMapName
                         +:+ "' does not match proxy trustedCA name '"
                         +:+ ref_Name (TrustedCA (proxy_Spec proxyConfig)) +:+ "'")))
    else ret None
  end.

(** The text both branches of [Reconcile] report for an invalid proxy. *)
Definition invalid_configuration (name : string) (err : error) : string :=
  "The configuration is invalid for proxy '" +:+ name +:+ "' (" +:+ Error err +:+ "). "
  +:+ "Use 'oc edit proxy.config.openshift.io " +:+ name +:+ "' to fix.".

(** [r.status.SetDegraded(statusmanager.ProxyConfig, reason, message)]
    followed by [return reconcile.Result{}, err]. *)
Definition degraded {A} (reason message : string) (err : error) : Body A :=
  do? lift (SetDegraded ProxyConfig reason message) in
  Return Result_zero (Some err).

Definition trusted_ca_bundle_path : string :=
  TRUSTED_CA_BUNDLE_CONFIGMAP_NS +:+ "/" +:+ TRUSTED_CA_BUNDLE_CONFIGMAP.

(** [case request.NamespacedName == names.Proxy()] *)
Definition reconcileProxy (request : Request) : Body ConfigMap :=
  let validate := true in
  let? got := lift (client_Get_Proxy request) in
  let? proxyConfig :=
    match got with
    | inr err =>
      if IsNotFound err then Return Result_zero None
      else Return Result_zero
             (Some (Errorf ("failed to get proxy '" +:+ nn_Name request +:+ "': "
                            +:+ Error err)))
    | inl fetched => proceed fetched
    end in
  let validate :=
    if negb (isSpecHTTPProxySet (proxy_Spec proxyConfig)) &&
       negb (isSpecHTTPSProxySet (proxy_Spec proxyConfig)) &&
       negb (isSpecNoProxySet (proxy_Spec proxyConfig))
    then false else validate in
  do? (if validate then
         let? checked := lift (ValidateProxyConfig (proxy_Spec proxyConfig)) in
         match checked with
         | Some err =>
           degraded "InvalidProxyConfig"
             (invalid_configuration (proxy_Name proxyConfig) err)
             (Errorf ("failed to validate proxy '" +:+ proxy_Name proxyConfig +:+ "': "
                      +:+ Error err))
         | None => proceed tt
         end
       else proceed tt) in
  let? trustBundle :=
    if negb (isSpecTrustedCASet (proxy_Spec proxyConfig)) then
      let? generated := lift generateSystemTrustBundle in
      match generated with
      | inr err =>
        degraded "GenerateConfigMapFailure"
          ("failed to generate system trust bundle configmap '" +:+ trusted_ca_bundle_path
           +:+ " (" +:+ Error err +:+ ").")
          (Errorf ("failed to generate system trust bundle configmap '"
                   +:+ trusted_ca_bundle_path +:+ "': " +:+ Error err))
      | inl bundle => proceed bundle
      end
    else
      let? validated :=
        lift (validateTrustedCA (ref_Name (TrustedCA (proxy_Spec proxyConfig)))) in
      match validated with
      | inr err =>
        degraded "InvalidProxyConfig"
          (invalid_configuration (proxy_Name proxyConfig) err)
          (Errorf ("failed to validate trustedCA for proxy '" +:+ proxy_Name proxyConfig
                   +:+ "': " +:+ Error err))
      | inl (proxyData, systemData) =>
        match mergeTrustBundlesToConfigMap proxyData systemData with
        | inr err =>
          degraded "ProxyCAMergeFailure"
            (invalid_configuration (proxy_Name proxyConfig) err)
            (Errorf ("failed to merge trustedCA and system bundles for proxy '"
                     +:+ proxy_Name proxyConfig +:+ "': " +:+ Error err))
        | inl merged => proceed merged
        end
      end in
  let? gotInfra :=
    lift (client_Get_Infrastructure
            {| nn_Namespace := EmptyString; nn_Name := CLUSTER_CONFIG |}) in
  let? infraConfig :=
    match gotInfra with
    | inr err =>
      degraded "InfraConfigError"
        ("Error getting infrastructure config " +:+ CLUSTER_CONFIG +:+ ": " +:+ Error err)
        (Errorf ("failed to get infrastructure config '" +:+ CLUSTER_CONFIG +:+ "': "
                 +:+ Error err))
    | inl fetched => proceed fetched
    end in
  let? gotNet :=
    lift (client_Get_Network
            {| nn_Namespace := EmptyString; nn_Name := CLUSTER_CONFIG |}) in
  let? netConfig :=
    match gotNet with
    | inr err =>
      degraded "NetworkConfigError"
        ("Error getting network config '" +:+ CLUSTER_CONFIG +:+ "': " +:+ Error err +:+ ".")
        (Errorf ("failed to get network config '" +:+ CLUSTER_CONFIG +:+ "': "
                 +:+ Error err))
    | inl fetched => proceed fetched
    end in
  let? gotCluster :=
    lift (client_Get_ConfigMap
            {| nn_Namespace := "kube-system"; nn_Name := "cluster-config-v1" |}) in
  let? clusterConfig :=
    match gotCluster with
    | inr err =>
      (* the object was not filled in, so its namespace and name are empty *)
      degraded "ClusterConfigError"
        ("Error getting cluster config configmap '" +:+ EmptyString +:+ "/" +:+ EmptyString
         +:+ "': " +:+ Error err +:+ ".")
        (Errorf ("failed to get configmap '" +:+ EmptyString +:+ "/" +:+ EmptyString
                 +:+ "': " +:+ Error err))
    | inl fetched => proceed fetched
    end in
  let? synced := lift (syncProxyStatus proxyConfig infraConfig netConfig clusterConfig) in
  match synced with
  | Some err =>
    degraded "StatusError"
      ("Could not update proxy '" +:+ proxy_Name proxyConfig +:+ "' status: " +:+ Error err)
      (Errorf ("failed to sync proxy '" +:+ PROXY_CONFIG +:+ "': " +:+ Error err))
  | None => proceed trustBundle
  end.

(** [case request.Namespace == names.ADDL_TRUST_BUNDLE_CONFIGMAP_NS] *)
Definition reconcileConfigMap (request : Request) : Body ConfigMap :=
  let validate := true in
  let? got := lift (client_Get_ConfigMap request) in
  let? trustBundle :=
    match got with
    | inr err =>
      if IsNotFound err then Return Result_zero None
      else Return Result_zero
             (Some (Errorf ("failed to get configmap '" +:+ nn_String request +:+ "': "
                            +:+ Error err)))
    | inl fetched => proceed fetched
    end in
  let? admitted := lift (configMapIsProxyTrustedCA (cm_Name trustBundle)) in
  do? match admitted with
      | Some _ => Return Result_zero None
      | None => proceed tt
      end in
  let? validated := lift (validateTrustedCA (cm_Name trustBundle)) in
  let? bundles :=
    match validated with
    | inr err =>
      degraded "TrustBundleValidationFailure"
        ("Failed to validate additional trust bundle configmap '"
         +:+ cm_Namespace trustBundle +:+ "/" +:+ cm_Name trustBundle
         +:+ "' (" +:+ Error err +:+ ")")
        (Errorf ("failed to validate additional trust bundle configmap '"
                 +:+ cm_Namespace trustBundle +:+ "/" +:+ cm_Name trustBundle
                 +:+ "': " +:+ Error err))
    | inl data => proceed data
    end in
  let '(proxyData, systemData) := bundles in
  let? trustBundle :=
    match mergeTrustBundlesToConfigMap proxyData systemData with
    | inr err =>
      degraded "EnsureProxyConfigFailure"
        (invalid_configuration PROXY_CONFIG err)
        (Errorf ("failed to merge trustedCA and system bundles for proxy '"
                 +:+ PROXY_CONFIG +:+ "': " +:+ Error err))
    | inl merged => proceed merged
    end in
  let? gotProxy := lift (client_Get_Proxy names_Proxy) in
  let? proxyConfig :=
    match gotProxy with
    | inr err =>
      if IsNotFound err then Return Result_zero None
      else Return Result_zero
             (Some (Errorf ("failed to get proxy '" +:+ nn_Name request +:+ "': "
                            +:+ Error err)))
    | inl fetched => proceed fetched
    end in
  let validate :=
    if negb (isSpecHTTPProxySet (proxy_Spec proxyConfig)) &&
       negb (isSpecHTTPSProxySet (proxy_Spec proxyConfig)) &&
       negb (isSpecNoProxySet (proxy_Spec proxyConfig))
    then false else validate in
  do? (if validate then
         let? checked := lift (ValidateProxyConfig (proxy_Spec proxyConfig)) in
         match checked with
         | Some err =>
           degraded "InvalidProxyConfig"
             (invalid_configuration (proxy_Name proxyConfig) err)
             (Errorf ("failed to validate proxy '" +:+ proxy_Name proxyConfig +:+ "': "
                      +:+ Error err))
         | None => proceed tt
         end
       else proceed tt) in
  if negb (isSpecTrustedCASet (proxy_Spec proxyConfig)) then
    let? generated := lift generateSystemTrustBundle in
    match generated with
    | inr err =>
      degraded "GenerateConfigMapFailure"
        ("failed to generate system trust bundle configmap '" +:+ trusted_ca_bundle_path
         +:+ " (" +:+ Error err +:+ ").")
        (Errorf ("failed to generate system trust bundle configmap '"
                 +:+ trusted_ca_bundle_path +:+ "': " +:+ Error err))
    | inl bundle => proceed bundle
    end
  else
    let? validated :=
      lift (validateTrustedCA (ref_Name (TrustedCA (proxy_Spec proxyConfig)))) in
    match validated with
    | inr err =>
      degraded "InvalidProxyConfig"
        (invalid_configuration (proxy_Name proxyConfig) err)
        (Errorf ("failed to validate trustedCA for proxy '" +:+ proxy_Name proxyConfig
                 +:+ "': " +:+ Error err))
    | inl (proxyData, systemData) =>
      match mergeTrustBundlesToConfigMap proxyData systemData with
      | inr err =>
        degraded "ProxyCAMergeFailure"
          (invalid_configuration (proxy_Name proxyConfig) err)
          (Errorf ("failed to merge trustedCA and system bundles for proxy '"
                   +:+ proxy_Name proxyConfig +:+ "': " +:+ Error err))
      | inl merged => proceed merged
      end
    end.

(** The [switch] of [Reconcile]: it either returns from the function or
    leaves in [trustBundle] the ConfigMap the sync stage is called with. *)
Definition dispatch (request : Request) : Body ConfigMap :=
  if bool_decide (request = names_Proxy) then reconcileProxy request
  else if bool_decide (nn_Namespace request = ADDL_TRUST_BUNDLE_CONFIGMAP_NS) then
    reconcileConfigMap request
  else Return Result_zero None.

(** What follows the [switch]: sync, then report. *)
Definition syncStage (trustBundle : ConfigMap) : Body Outcome :=
  let? synced := lift (syncTrustedCABundle trustBundle) in
  match synced with
  | Some err =>
    degraded "TrustBundleSyncFailure"
      ("Additional trust bundle configmap '" +:+ cm_Namespace trustBundle +:+ "/"
       +:+ cm_Name trustBundle +:+ "' not synced (" +:+ Error err +:+ ")")
      (Errorf ("failed to sync additional trust bundle configmap "
               +:+ cm_Namespace trustBundle +:+ "/" +:+ cm_Name trustBundle
               +:+ ": " +:+ Error err))
  | None =>
    do? lift (SetNotDegraded ProxyConfig) in
    Return Result_zero None
  end.

(** [Reconcile] *)
Definition Reconcile (request : Request) : M Outcome :=
  run (let? trustBundle := dispatch request in syncStage trustBundle).

End Controller.

(** ** Vocabulary of the properties *)

(** The derived ConfigMap holding [data] under the well-known key. *)
Definition trustBundleOf (data : list byte) : ConfigMap :=
  {| cm_Namespace := TRUSTED_CA_BUNDLE_CONFIGMAP_NS;
     cm_Name := TRUSTED_CA_BUNDLE_CONFIGMAP;
     cm_Data := {[ TRUSTED_CA_BUNDLE_CONFIGMAP_KEY := String.string_of_list_byte data ]} |}.

(** The bytes a ConfigMap holds under the well-known key. *)
Definition bundle_bytes (c : ConfigMap) : list byte :=
  String.list_byte_of_string (Data_at TRUSTED_CA_BUNDLE_CONFIGMAP_KEY c).

(** The fetch an invocation starts with, when it fails: the proxy for the
    proxy request, the ConfigMap for a request of the additional-trust-bundle
    namespace.  Other requests fetch nothing. *)
Definition input_fetch_error (st : Store) (request : Request) : option (Kind * error) :=
  if bool_decide (request = names_Proxy) then
    match fetch KProxy (st_proxies st) request with
    | inr err => Some (KProxy, err)
    | inl _ => None
    end
  else if bool_decide (nn_Namespace request = ADDL_TRUST_BUNDLE_CONFIGMAP_NS) then
    match fetch KConfigMap (st_configmaps st) request with
    | inr err => Some (KConfigMap, err)
    | inl _ => None
    end
  else None.

(** The error [Reconcile] returns for a failed input fetch. *)
Definition input_fetch_failure (k : Kind) (request : Request) (err : error) : error :=
  match k with
  | KProxy => Errorf ("failed to get proxy '" +:+ nn_Name request +:+ "': " +:+ Error err)
  | _ => Errorf ("failed to get configmap '" +:+ nn_String request +:+ "': " +:+ Error err)
  end.

Section Desired.
Context {ext : Externals}.

(** The derived ConfigMap the current store calls for: the system bundle
    alone when the cluster proxy names no trustedCA, the merge of the
    referenced bundle with the system bundle when it names one; nothing when
    the proxy cannot be read or a bundle is refused. *)
Definition desired (st : Store) : option ConfigMap :=
  match fetch KProxy (st_proxies st) names_Proxy with
  | inr _ => None
  | inl spec =>
    if isSpecTrustedCASet spec then
      match ext_validateTrustedCA (ref_Name (TrustedCA spec)) st with
      | inr _ => None
      | inl (proxyData, systemData) =>
        match mergeTrustBundlesToConfigMap proxyData systemData with
        | inr _ => None
        | inl merged => Some merged
        end
      end
    else
      match ext_validateSystemTrustBundle SYSTEM_TRUST_BUNDLE st with
      | inr _ => None
      | inl bundleData => Some (trustBundleOf bundleData)
      end
  end.

End Desired.

(** ** A concrete cluster *)

(** An instance of the outside methods to run the controller on: proxy
    validation rejects one malformed URL, the trust-bundle helpers read the
    referenced ConfigMap and the system bundle file and accept any content,
    and the status sync writes nothing. *)
Module Demo.

Definition system_path : string := "/etc/pki/ca-trust/extracted/pem/tls-ca-bundle.pem".

Definition read_system (path : string) (st : Store) : list byte + error :=
  match st_files st !! path with
  | Some bytes => inl bytes
  | None => inr (Errorf ("open " +:+ path +:+ ": no such file or directory"))
  end.

Definition read_trustedCA (cfgMapName : string) (st : Store)
    : (list byte * list byte) + error :=
  match fetch KConfigMap (st_configmaps st)
          {| nn_Namespace := ADDL_TRUST_BUNDLE_CONFIGMAP_NS; nn_Name := cfgMapName |} with
  | inr err => inr err
  | inl data =>
    match read_system system_path st with
    | inr err => inr err
    | inl systemData =>
      inl (String.list_byte_of_string
             (default EmptyString (data !! TRUSTED_CA_BUNDLE_CONFIGMAP_KEY)),
           systemData)
    end
  end.

#[export] Instance ext : Externals := {|
  CLUSTER_CONFIG := "cluster";
  SYSTEM_TRUST_BUNDLE := system_path;
  ext_ValidateProxyConfig := fun spec _ =>
    if bool_decide (HTTPProxy spec = "not-a-url")
    then Some (Errorf "invalid httpProxy URI") else None;
  ext_validateTrustedCA := read_trustedCA;
  validateTrustBundle := fun _ => None;
  ext_validateSystemTrustBundle := read_system;
  ext_syncProxyStatus := fun _ _ _ _ st => (None, st);
|}.

Definition spec0 : ProxySpec :=
  {| HTTPProxy := EmptyString; HTTPSProxy := EmptyString; NoProxy := EmptyString;
     ReadinessEndpoints := []; TrustedCA := {| ref_Name := EmptyString |} |}.

Definition with_trustedCA (name : string) (spec : ProxySpec) : ProxySpec :=
  {| HTTPProxy := HTTPProxy spec; HTTPSProxy := HTTPSProxy spec; NoProxy := NoProxy spec;
     ReadinessEndpoints := ReadinessEndpoints spec;
     TrustedCA := {| ref_Name := name |} |}.

Definition with_httpProxy (url : string) (spec : ProxySpec) : ProxySpec :=
  {| HTTPProxy := url; HTTPSProxy := HTTPSProxy spec; NoProxy := NoProxy spec;
     ReadinessEndpoints := ReadinessEndpoints spec;
     TrustedCA := TrustedCA spec |}.

Definition cluster : NamespacedName :=
  {| nn_Namespace := EmptyString; nn_Name := "cluster" |}.

Definition source (name : string) : NamespacedName :=
  {| nn_Namespace := ADDL_TRUST_BUNDLE_CONFIGMAP_NS; nn_Name := name |}.

Definition system_bytes : list byte := String.list_byte_of_string "SYSTEM-CERT".

(** A cluster whose proxy has spec [spec] and whose source ConfigMaps are
    [sources]; the derived ConfigMap does not exist yet. *)
Definition cluster_with (spec : ProxySpec) (sources : list (string * string)) : Store :=
  {| st_proxies := {[ cluster := Stored spec ]};
     st_configmaps :=
       <[ {| nn_Namespace := "kube-system"; nn_Name := "cluster-config-v1" |} := Stored ∅ ]>
       (list_to_map
          (map (fun kv => (source kv.1,
                           Stored ({[ TRUSTED_CA_BUNDLE_CONFIGMAP_KEY := kv.2 ]}
                                   : gmap string string)))
               sources));
     st_infrastructures := {[ cluster := Stored tt ]};
     st_networks := {[ cluster := Stored tt ]};
     st_write_fault := None;
     st_files := {[ system_path := system_bytes ]} |}.

Definition candidate (text : string) : ConfigMap :=
  {| cm_Namespace := TRUSTED_CA_BUNDLE_CONFIGMAP_NS;
     cm_Name := TRUSTED_CA_BUNDLE_CONFIGMAP;
     cm_Data := {[ TRUSTED_CA_BUNDLE_CONFIGMAP_KEY := text ]} |}.

(** Scenario A: no proxy fields, no trustedCA. *)
Definition fresh : Store := cluster_with spec0 [].

(** Scenario B: trustedCA names custom-ca, which exists next to another
    ConfigMap of the same namespace. *)
Definition custom : Store :=
  cluster_with (with_trustedCA "custom-ca" spec0)
    [("custom-ca", "CUSTOM-CERT"); ("other-ca", "OTHER-CERT")].

(** Scenario C: a malformed httpProxy. *)
Definition malformed : Store :=
  cluster_with (with_httpProxy "not-a-url" spec0) [].

(** No proxy settings, but a readiness endpoint that is not a URL. *)
Definition spec_endpoints : ProxySpec :=
  {| HTTPProxy := EmptyString; HTTPSProxy := EmptyString; NoProxy := EmptyString;
     ReadinessEndpoints := ["::not a url::"];
     TrustedCA := {| ref_Name := "custom-ca" |} |}.

Definition endpoints : Store :=
  cluster_with spec_endpoints [("custom-ca", "CUSTOM-CERT")].

(** A cluster whose proxy is gone, and one whose source ConfigMap cannot be
    read. *)
Definition no_proxy : Store :=
  {| st_proxies := ∅;
     st_configmaps := st_configmaps custom;
     st_infrastructures := st_infrastructures custom;
     st_networks := st_networks custom;
     st_write_fault := None;
     st_files := st_files custom |}.

Definition unreadable : Store :=
  {| st_proxies := st_proxies custom;
     st_configmaps := <[ source "custom-ca" := Unreadable "etcdserver: request timed out" ]>
                      (st_configmaps custom);
     st_infrastructures := st_infrastructures custom;
     st_networks := st_networks custom;
     st_write_fault := None;
     st_files := st_files custom |}.

End Demo.


(** ** Set-up: the watch filter and [Add] *)

(** [metav1.Object], as far as the controller looks at it. *)
Record ObjectMeta := {
  meta_Namespace : string;
  meta_Name : string;
}.

(** [handleConfigMap] *)
Definition handleConfigMap (meta : ObjectMeta) : bool :=
  bool_decide (meta_Namespace meta = ADDL_TRUST_BUNDLE_CONFIGMAP_NS).

(** The four kinds of [event]; an update carries the old and the new
    metadata. *)
Inductive Event :=
| CreateEvent (Meta : ObjectMeta)
| UpdateEvent (MetaOld MetaNew : ObjectMeta)
| DeleteEvent (Meta : ObjectMeta)
| GenericEvent (Meta : ObjectMeta).

(** [pred], the [predicate.Funcs] value built in [add]. *)
Definition pred (e : Event) : bool :=
  match e with
  | UpdateEvent _ MetaNew => handleConfigMap MetaNew
  | DeleteEvent Meta => handleConfigMap Meta
  | CreateEvent Meta => handleConfigMap Meta
  | GenericEvent Meta => handleConfigMap Meta
  end.

(** The metadata [pred] looks at. *)
Definition subject (e : Event) : ObjectMeta :=
  match e with
  | UpdateEvent _ MetaNew => MetaNew
  | DeleteEvent Meta | CreateEvent Meta | GenericEvent Meta => Meta
  end.

(** The request [handler.EnqueueRequestForObject] queues for an object. *)
Definition request_for (meta : ObjectMeta) : Request :=
  {| nn_Namespace := meta_Namespace meta; nn_Name := meta_Name meta |}.

Definition meta_of (obj : ConfigMap) : ObjectMeta :=
  {| meta_Namespace := cm_Namespace obj; meta_Name := cm_Name obj |}.

Section Setup.
(** The client, scheme and status manager are handles the controller only
    stores. *)
Context {Client Scheme StatusManager : Type}.

(** [ReconcileProxyConfig]; a field that was never set is [None]. *)
Record ReconcileProxyConfig := {
  r_client : option Client;
  r_scheme : option Scheme;
  r_status : option StatusManager;
}.

(** [manager.Manager] together with what controller-runtime answers during
    set-up: the result of [configv1.Install] on the manager's scheme, of
    [controller.New], and of [Watch] for each kind of source. *)
Record Manager := {
  mgr_Client : Client;
  mgr_Scheme : Scheme;
  Install_result : option error;
  New_result : option error;
  Watch_result : Kind -> option error;
}.

(** The calls of the set-up, oldest first.  A watch is recorded with its
    predicates. *)
Inductive SetupCall :=
| CallInstall
| CallNew (name : string) (Reconciler : ReconcileProxyConfig)
| CallWatch (k : Kind) (predicates : list (Event -> bool)).

Definition Setup (A : Type) : Type := list SetupCall -> A * list SetupCall.

Definition setup_call {A} (c : SetupCall) (answer : A) : Setup A :=
  fun calls => (answer, calls ++ [c]).

(** [newReconciler]; the result is a pointer, which is never nil. *)
Definition newReconciler (mgr : Manager) (status : StatusManager)
    : Setup (option ReconcileProxyConfig) :=
  fun calls =>
    let (installed, calls) := setup_call CallInstall (Install_result mgr) calls in
    match installed with
    | Some _ =>
      (Some {| r_client := None; r_scheme := None; r_status := None |}, calls)
    | None =>
      (Some {| r_client := Some (mgr_Client mgr);
               r_scheme := Some (mgr_Scheme mgr);
               r_status := Some status |}, calls)
    end.

(** [add] *)
Definition add (mgr : Manager) (r : ReconcileProxyConfig) : Setup (option error) :=
  fun calls =>
    let (created, calls) :=
      setup_call (CallNew "proxyconfig-controller" r) (New_result mgr) calls in
    match created with
    | Some err => (Some err, calls)
    | None =>
      let (watched, calls) :=
        setup_call (CallWatch KConfigMap [pred]) (Watch_result mgr KConfigMap) calls in
      match watched with
      | Some err => (Some err, calls)
      | None =>
        let (watched, calls) :=
          setup_call (CallWatch KProxy []) (Watch_result mgr KProxy) calls in
        match watched with
        | Some err => (Some err, calls)
        | None => (None, calls)
        end
      end
    end.

(** [Add] *)
Definition Add (mgr : Manager) (status : StatusManager) : Setup (option error) :=
  fun calls =>
    let (reconciler, calls) := newReconciler mgr status calls in
    match reconciler with
    | None => (Some (Errorf "failed to create reconciler"), calls)
    | Some reconciler => add mgr reconciler calls
    end.

End Setup.

Arguments ReconcileProxyConfig : clear implicits.
Arguments Manager : clear implicits.
Arguments SetupCall : clear implicits.

(** ** Vocabulary of the further properties *)

Definition is_health (c : Call) : bool :=
  match c with
  | CallSetDegraded _ _ _ | CallSetNotDegraded _ => true
  | _ => false
  end.

(** Calls that write ConfigMaps. *)
Definition is_store_write (c : Call) : bool :=
  match c with
  | CallCreate _ | CallUpdate _ => true
  | _ => false
  end.

Definition quiet (calls : list Call) : Prop :=
  Forall (fun c => is_health c = false) calls.

(** How an invocation reports: if anything is reported at all it is the
    last call, degraded goes with an error and not-degraded with none. *)
Definition reports_once (out : Outcome) (calls : list Call) : Prop :=
  match last calls with
  | Some (CallSetDegraded _ _ _) => is_Some out.2 /\ quiet (removelast calls)
  | Some (CallSetNotDegraded _) => out.2 = None /\ quiet (removelast calls)
  | _ => quiet calls
  end.

(** The stores agree on everything but the ConfigMap under [key]. *)
Definition same_but (key : NamespacedName) (st st' : Store) : Prop :=
  st_proxies st' = st_proxies st /\
  st_infrastructures st' = st_infrastructures st /\
  st_networks st' = st_networks st /\
  st_write_fault st' = st_write_fault st /\
  st_files st' = st_files st /\
  forall other, other <> key -> st_configmaps st' !! other = st_configmaps st !! other.

(** The reason codes the ConfigMap branch and the sync stage can report. *)
Definition configmap_reasons : list string :=
  ["TrustBundleValidationFailure"; "EnsureProxyConfigFailure"; "InvalidProxyConfig";
   "TrustBundleSyncFailure"].

Section Expected.
Context {ext : Externals}.

(** The bytes the validation helpers yield for the current store: the
    referenced bundle followed by the system bundle when the proxy names a
    trustedCA, the system bundle otherwise. *)
Definition expected_bytes (st : Store) : option (list byte) :=
  match fetch KProxy (st_proxies st) names_Proxy with
  | inr _ => None
  | inl spec =>
    if isSpecTrustedCASet spec then
      match ext_validateTrustedCA (ref_Name (TrustedCA spec)) st with
      | inr _ => None
      | inl (proxyData, systemData) => Some (proxyData ++ systemData)
      end
    else
      match ext_validateSystemTrustBundle SYSTEM_TRUST_BUNDLE st with
      | inr _ => None
      | inl bundleData => Some bundleData
      end
  end.

End Expected.

(** ** More concrete clusters *)

Module Cases.

(** Scenario D: the derived ConfigMap exists with outdated content. *)
Definition stale : Store :=
  set_configmaps
    (insert names_TrustedCABundleConfigMap
            (Stored {[ TRUSTED_CA_BUNDLE_CONFIGMAP_KEY := "OLD-CERT" ]}))
    Demo.fresh.

(** The derived ConfigMap cannot be read. *)
Definition derived_unreadable : Store :=
  set_configmaps
    (insert names_TrustedCABundleConfigMap (Unreadable "etcdserver: request timed out"))
    Demo.fresh.

(** The proxy cannot be read. *)
Definition proxy_unreadable : Store :=
  {| st_proxies := {[ Demo.cluster := Unreadable "etcdserver: request timed out" ]};
     st_configmaps := st_configmaps Demo.custom;
     st_infrastructures := st_infrastructures Demo.custom;
     st_networks := st_networks Demo.custom;
     st_write_fault := None;
     st_files := st_files Demo.custom |}.

(** The infrastructure config is missing. *)
Definition no_infrastructure : Store :=
  {| st_proxies := st_proxies Demo.custom;
     st_configmaps := st_configmaps Demo.custom;
     st_infrastructures := ∅;
     st_networks := st_networks Demo.custom;
     st_write_fault := None;
     st_files := st_files Demo.custom |}.

(** The outside methods of [Demo], with a [validateTrustBundle] that insists
    on a PEM header. *)
Definition pem_header : string := "-----BEGIN CERTIFICATE-----".

Definition strict : Externals := {|
  CLUSTER_CONFIG := "cluster";
  SYSTEM_TRUST_BUNDLE := Demo.system_path;
  ext_ValidateProxyConfig := fun spec _ =>
    if bool_decide (HTTPProxy spec = "not-a-url")
    then Some (Errorf "invalid httpProxy URI") else None;
  ext_validateTrustedCA := Demo.read_trustedCA;
  validateTrustBundle := fun c =>
    if String.prefix pem_header (Data_at TRUSTED_CA_BUNDLE_CONFIGMAP_KEY c)
    then None else Some (Errorf "failed parsing certificate");
  ext_validateSystemTrustBundle := Demo.read_system;
  ext_syncProxyStatus := fun _ _ _ _ st => (None, st);
|}.

(** A proxy under another name, and a ConfigMap event of the watched
    namespace. *)
Definition other_proxy : Request :=
  {| nn_Namespace := EmptyString; nn_Name := "other" |}.

Definition custom_ca_created : Event :=
  CreateEvent {| meta_Namespace := ADDL_TRUST_BUNDLE_CONFIGMAP_NS;
                 meta_Name := "custom-ca" |}.

End Cases.
(** * Properties *)

(** ** Bytes and strings *)

Lemma append_each_app (src dst : list byte) : append_each dst src = dst ++ src.
Proof.
  unfold append_each. revert dst.
  induction src as [|d src IH]; intros dst; simpl.
  - by rewrite app_nil_r.
  - rewrite IH. by rewrite <- app_assoc.
Qed.

Lemma Data_at_singleton ns name key text :
  Data_at key {| cm_Namespace := ns; cm_Name := name; cm_Data := {[ key := text ]} |} = text.
Proof. unfold Data_at. simpl. by rewrite lookup_singleton_eq. Qed.

Lemma bundle_bytes_trustBundleOf (data : list byte) :
  bundle_bytes (trustBundleOf data) = data.
Proof.
  unfold bundle_bytes, trustBundleOf. rewrite Data_at_singleton.
  apply String.list_byte_of_string_of_list_byte.
Qed.

Lemma isSpecTrustedCASet_named (spec : ProxySpec) :
  ref_Name (TrustedCA spec) <> EmptyString -> isSpecTrustedCASet spec = true.
Proof.
  intros Hne. unfold isSpecTrustedCASet, len.
  destruct (ref_Name (TrustedCA spec)); [done|reflexivity].
Qed.

Lemma fetch_Stored {A} (k : Kind) (tbl : gmap NamespacedName (Slot A)) key (a : A) :
  tbl !! key = Some (Stored a) -> fetch k tbl key = inl a.
Proof. intros H. unfold fetch. by rewrite H. Qed.

Section Merge.
Context {ext : Externals}.

Lemma merge_nonempty (additional system : list byte) :
  additional ≠ [] -> system ≠ [] ->
  mergeTrustBundlesToConfigMap additional system =
    match validateTrustBundle (trustBundleOf (additional ++ system)) with
    | Some err =>
      inr (Errorf ("failed to validate merged configmap '" +:+ trusted_ca_bundle_path
                   +:+ "': " +:+ Error err))
    | None => inl (trustBundleOf (additional ++ system))
    end.
Proof.
  intros Ha Hs. unfold mergeTrustBundlesToConfigMap.
  destruct additional as [|a additional]; [done|].
  destruct system as [|s system]; [done|].
  cbn [length Nat.eqb]. rewrite !append_each_app. rewrite app_nil_l.
  reflexivity.
Qed.

(** C4.  When both bundles are non-empty and their concatenation, packaged
    as the derived ConfigMap, passes [validateTrustBundle], the merge returns
    the derived ConfigMap whose well-known key holds exactly the bytes of
    [additional] followed by the bytes of [system]: the stored bytes start
    with [additional] and end with [system]. *)
Theorem merge_is_concatenation (additional system : list byte) :
  additional ≠ [] ->
  system ≠ [] ->
  validateTrustBundle (trustBundleOf (additional ++ system)) = None ->
  exists merged,
    mergeTrustBundlesToConfigMap additional system = inl merged /\
    key_of merged = names_TrustedCABundleConfigMap /\
    bundle_bytes merged = additional ++ system /\
    additional `prefix_of` bundle_bytes merged /\
    system `suffix_of` bundle_bytes merged.
Proof.
  intros Ha Hs Hvalid.
  exists (trustBundleOf (additional ++ system)).
  rewrite merge_nonempty by done. rewrite Hvalid.
  rewrite bundle_bytes_trustBundleOf.
  split_and!; [done | done | done | by apply prefix_app_r | by apply suffix_app_r].
Qed.

(** C5.  An empty additional bundle is refused whatever the system bundle
    is, and an empty system bundle is refused whatever the additional bundle
    is; each time the result is an error naming the empty bundle, and no
    ConfigMap. *)
Theorem merge_rejects_empty :
  (forall system : list byte,
     mergeTrustBundlesToConfigMap [] system =
       inr (Errorf "failed to merge ca bundles, additional trust bundle is empty")) /\
  (forall additional : list byte,
     mergeTrustBundlesToConfigMap additional [] =
       inr (Errorf (if bool_decide (additional = [])
                    then "failed to merge ca bundles, additional trust bundle is empty"
                    else "failed to merge ca bundles, system trust bundle is empty"))).
Proof.
  split.
  - intros system. reflexivity.
  - intros [|a additional]; reflexivity.
Qed.

End Merge.

(** ** The sync engine *)

Ltac unfold_sync :=
  unfold syncTrustedCABundle, client_Get_ConfigMap, client_Create, client_Update,
    bind, call, read, update, ret, init, store_Create, store_Update, fetch,
    configMapsEqual in *.

(** A store whose derived ConfigMap already carries the candidate's payload
    is left alone: one Get, no write. *)
Lemma sync_in_sync (st : Store) (candidate : ConfigMap) (data : gmap string string) :
  st_configmaps st !! names_TrustedCABundleConfigMap = Some (Stored data) ->
  default EmptyString (data !! TRUSTED_CA_BUNDLE_CONFIGMAP_KEY)
    = Data_at TRUSTED_CA_BUNDLE_CONFIGMAP_KEY candidate ->
  syncTrustedCABundle candidate (init st) =
    (None, {| w_store := st;
              w_calls := [CallGet KConfigMap names_TrustedCABundleConfigMap] |}).
Proof.
  intros Hlook Hsame. unfold_sync. simpl. rewrite Hlook. simpl.
  rewrite bool_decide_eq_true_2; [reflexivity|].
  unfold Data_at at 1. simpl. exact Hsame.
Qed.

(** After a successful sync the derived ConfigMap exists and carries the
    candidate's payload. *)
Lemma sync_success_state (st : Store) (candidate : ConfigMap) (w1 : World) :
  key_of candidate = names_TrustedCABundleConfigMap ->
  syncTrustedCABundle candidate (init st) = (None, w1) ->
  exists data,
    st_configmaps (w_store w1) !! names_TrustedCABundleConfigMap = Some (Stored data) /\
    default EmptyString (data !! TRUSTED_CA_BUNDLE_CONFIGMAP_KEY)
      = Data_at TRUSTED_CA_BUNDLE_CONFIGMAP_KEY candidate.
Proof.
  intros Hkey Hrun. unfold_sync. rewrite Hkey in *. simpl in Hrun.
  destruct (st_configmaps st !! names_TrustedCABundleConfigMap)
    as [[data|msg]|] eqn:Hlook; simpl in Hrun.
  - (* found *)
    case_bool_decide as Heq; simpl in Hrun.
    + injection Hrun as <-. exists data. simpl. by rewrite Hlook.
    + destruct (st_write_fault st); simpl in Hrun; [done|].
      rewrite Hlook in Hrun. simpl in Hrun. injection Hrun as <-.
      exists (cm_Data candidate). simpl. by rewrite lookup_insert_eq.
  - (* unreadable *) done.
  - (* not found: Create, then the comparison with the empty object *)
    destruct (st_write_fault st) eqn:Hfault; simpl in Hrun; [done|].
    rewrite Hlook in Hrun. simpl in Hrun.
    case_bool_decide as Heq; simpl in Hrun.
    + injection Hrun as <-. exists (cm_Data candidate). simpl.
      by rewrite lookup_insert_eq.
    + rewrite Hfault in Hrun. rewrite lookup_insert_eq in Hrun. simpl in Hrun.
      injection Hrun as <-. exists (cm_Data candidate). simpl.
      by rewrite lookup_insert_eq.
Qed.

(** C2.  After a successful sync of a candidate at the derived identity, a
    second sync of the same candidate on the resulting store finds the
    stored value of the well-known key equal to the candidate's, returns no
    error and makes a single call, the Get: no Create, no Update, and the
    store is unchanged. *)
Theorem sync_idempotent (st : Store) (candidate : ConfigMap) (w1 : World) :
  key_of candidate = names_TrustedCABundleConfigMap ->
  syncTrustedCABundle candidate (init st) = (None, w1) ->
  (exists current,
     fetch KConfigMap (st_configmaps (w_store w1)) names_TrustedCABundleConfigMap
       = inl current /\
     configMapsEqual TRUSTED_CA_BUNDLE_CONFIGMAP_KEY
       {| cm_Namespace := TRUSTED_CA_BUNDLE_CONFIGMAP_NS;
          cm_Name := TRUSTED_CA_BUNDLE_CONFIGMAP;
          cm_Data := current |} candidate = true) /\
  syncTrustedCABundle candidate (init (w_store w1)) =
    (None, {| w_store := w_store w1;
              w_calls := [CallGet KConfigMap names_TrustedCABundleConfigMap] |}).
Proof.
  intros Hkey Hrun.
  destruct (sync_success_state st candidate w1 Hkey Hrun) as (data & Hlook & Hsame).
  split.
  - exists data. unfold fetch. rewrite Hlook. split; [done|].
    unfold configMapsEqual. by apply bool_decide_eq_true_2.
  - by apply sync_in_sync with data.
Qed.

(** The sync engine talks to the object store only. *)
Lemma sync_calls (candidate : ConfigMap) (w w' : World) (r : option error) :
  syncTrustedCABundle candidate w = (r, w') ->
  exists calls, w_calls w' = w_calls w ++ calls /\ Forall (fun c => is_client c = true) calls.
Proof.
  intros Hrun. unfold_sync.
  repeat (simpl in *; simplify_eq; try case_match).
  all: rewrite <- ?app_assoc; eexists; (split; [reflexivity|]).
  all: repeat constructor.
Qed.

(** On a store without the derived ConfigMap, a sync that can write issues
    the Create and then compares the candidate with the object it never
    filled in: unless the candidate's payload is empty, an Update follows. *)
Lemma sync_not_found (st : Store) (candidate : ConfigMap) :
  key_of candidate = names_TrustedCABundleConfigMap ->
  st_configmaps st !! names_TrustedCABundleConfigMap = None ->
  st_write_fault st = None ->
  exists st',
    syncTrustedCABundle candidate (init st) =
      (None,
       {| w_store := st';
          w_calls :=
            CallGet KConfigMap names_TrustedCABundleConfigMap :: CallCreate candidate ::
            (if bool_decide (Data_at TRUSTED_CA_BUNDLE_CONFIGMAP_KEY candidate = EmptyString)
             then [] else [CallUpdate candidate]) |}).
Proof.
  intros Hkey Hlook Hfault. unfold_sync. rewrite Hkey. simpl.
  rewrite Hlook. simpl. rewrite Hfault, Hlook. simpl.
  replace (Data_at TRUSTED_CA_BUNDLE_CONFIGMAP_KEY
             {| cm_Namespace := EmptyString; cm_Name := EmptyString; cm_Data := ∅ |})
    with EmptyString by (unfold Data_at; simpl; by rewrite lookup_empty).
  destruct (decide (Data_at TRUSTED_CA_BUNDLE_CONFIGMAP_KEY candidate = EmptyString))
    as [Heq|Hne].
  - rewrite !bool_decide_eq_true_2 by done. simpl. by eexists.
  - rewrite !bool_decide_eq_false_2 by done. simpl.
    rewrite Hfault, lookup_insert_eq. by eexists.
Qed.

(** C1, which the code does not satisfy.  On the fresh cluster, where the
    fetch of the derived ConfigMap reports not-found, the sync of a candidate
    with a non-empty payload succeeds after three calls: the Get, the Create
    of the candidate, and an Update of the candidate. *)
Theorem sync_not_found_creates_then_updates :
  fetch KConfigMap (st_configmaps Demo.fresh) names_TrustedCABundleConfigMap
    = inr (NewNotFound KConfigMap names_TrustedCABundleConfigMap) /\
  (syncTrustedCABundle (Demo.candidate "SYSTEM-CERT") (init Demo.fresh)).1 = None /\
  w_calls (syncTrustedCABundle (Demo.candidate "SYSTEM-CERT") (init Demo.fresh)).2 =
    [CallGet KConfigMap names_TrustedCABundleConfigMap;
     CallCreate (Demo.candidate "SYSTEM-CERT");
     CallUpdate (Demo.candidate "SYSTEM-CERT")].
Proof. vm_compute. split_and!; reflexivity. Qed.

(** ** The reconciler *)

Section Reconciler.
Context {ext : Externals}.

#[local] Arguments String.append : simpl never.

Ltac unfold_body :=
  unfold reconcileProxy, reconcileConfigMap, syncStage, degraded,
    configMapIsProxyTrustedCA, generateSystemTrustBundle,
    ValidateProxyConfig, validateTrustedCA, validateSystemTrustBundle, syncProxyStatus,
    client_Get_Proxy, client_Get_ConfigMap, client_Get_Infrastructure, client_Get_Network,
    SetDegraded, SetNotDegraded,
    bindB, lift, proceed, Return, bind, call, read, update, ret, init in *.

Lemma dispatch_proxy : dispatch names_Proxy = reconcileProxy names_Proxy.
Proof. reflexivity. Qed.

Lemma dispatch_configmap (request : Request) :
  nn_Namespace request = ADDL_TRUST_BUNDLE_CONFIGMAP_NS ->
  dispatch request = reconcileConfigMap request.
Proof.
  intros Hns. unfold dispatch.
  rewrite bool_decide_eq_false_2.
  - by rewrite bool_decide_eq_true_2.
  - intros ->. done.
Qed.

Lemma Reconcile_returned (request : Request) (w w' : World) (out : Outcome) :
  dispatch request w = (inr out, w') -> Reconcile request w = (out, w').
Proof. intros H. unfold Reconcile, run, bindB. by rewrite H. Qed.

Tactic Notation "crunch" "with" tactic3(tac) :=
  repeat (simpl in *; tac; simplify_eq; try case_match).

Ltac crunch := crunch with idtac.

Ltac finish :=
  repeat match goal with
         | H : negb _ = true |- _ => apply negb_true_iff in H
         | H : negb _ = false |- _ => apply negb_false_iff in H
         end;
  first [ done | congruence ].

Lemma reconcileConfigMap_desired (st : Store) (request : Request) c w :
  reconcileConfigMap request (init st) = (inl c, w) -> desired st = Some c.
Proof.
  intros Hrun. unfold desired. unfold_body. crunch. all: finish.
Qed.

Lemma reconcileProxy_desired (st : Store) c w :
  reconcileProxy names_Proxy (init st) = (inl c, w) -> desired st = Some c.
Proof.
  intros Hrun. unfold desired. unfold_body. crunch. all: finish.
Qed.

(** When the proxy trigger gets to the sync stage with a candidate, so does
    the trigger of the ConfigMap the proxy's trustedCA refers to, provided
    that ConfigMap can be read.  (The converse needs the reads and the status
    sync that only the proxy branch performs.) *)
Lemma relevant_trigger_reaches_sync (st : Store) (request : Request)
    (spec : ProxySpec) (data : gmap string string) (c1 : ConfigMap) (w1 : World) :
  nn_Namespace request = ADDL_TRUST_BUNDLE_CONFIGMAP_NS ->
  nn_Name request <> EmptyString ->
  fetch KConfigMap (st_configmaps st) request = inl data ->
  fetch KProxy (st_proxies st) names_Proxy = inl spec ->
  ref_Name (TrustedCA spec) = nn_Name request ->
  dispatch names_Proxy (init st) = (inl c1, w1) ->
  exists w2, dispatch request (init st) = (inl c1, w2).
Proof.
  intros Hns Hname Hcm Hproxy Href Hrun.
  rewrite dispatch_proxy in Hrun. rewrite dispatch_configmap by done.
  assert (isSpecTrustedCASet spec = true) as Hset
    by (apply isSpecTrustedCASet_named; by rewrite Href).
  unfold_body. simpl in *.
  rewrite Hcm. simpl. rewrite Hproxy in *. simpl in *.
  rewrite bool_decide_eq_true_2 by done. simpl.
  rewrite Hset in *. simpl in *. rewrite <- Href.
  crunch. all: first [ by eexists | by (exfalso; rewrite Hset in * ) ].
Qed.


(** C6.  A request for a ConfigMap of the additional-trust-bundle namespace
    whose name is not the one the proxy's trustedCA refers to (in particular
    when trustedCA is unset) returns success after two reads, the ConfigMap
    and the proxy: nothing is reported to the status manager and nothing is
    written to the store. *)
Theorem reference_mismatch_is_noop (st : Store) (request : Request)
    (data : gmap string string) (spec : ProxySpec) :
  nn_Namespace request = ADDL_TRUST_BUNDLE_CONFIGMAP_NS ->
  st_configmaps st !! request = Some (Stored data) ->
  st_proxies st !! names_Proxy = Some (Stored spec) ->
  (ref_Name (TrustedCA spec) <> nn_Name request \/
   (isSpecTrustedCASet spec = false /\ nn_Name request <> EmptyString)) ->
  Reconcile request (init st) =
    ((Result_zero, None),
     {| w_store := st;
        w_calls := [CallGet KConfigMap request; CallGet KProxy names_Proxy] |}).
Proof.
  intros Hns Hcm Hproxy Hmismatch.
  assert (ref_Name (TrustedCA spec) <> nn_Name request) as Hne.
  { destruct Hmismatch as [H|[Hunset Hnamed]]; [done|].
    intros Heq. rewrite <- Heq in Hnamed.
    apply isSpecTrustedCASet_named in Hnamed. congruence. }
  apply Reconcile_returned. rewrite dispatch_configmap by done.
  unfold_body. simpl.
  rewrite (fetch_Stored _ _ _ _ Hcm). simpl.
  rewrite (fetch_Stored _ _ _ _ Hproxy). simpl.
  by rewrite bool_decide_eq_false_2.
Qed.

(** C7.  When the fetch an invocation starts with fails, [Reconcile] stops
    after that one read, with no report to the status manager and no write:
    it returns success when the failure is not-found, and an error naming
    the object otherwise. *)
Theorem input_fetch_failure_outcome (st : Store) (request : Request)
    (k : Kind) (err : error) :
  input_fetch_error st request = Some (k, err) ->
  Reconcile request (init st) =
    ((Result_zero,
      if IsNotFound err then None else Some (input_fetch_failure k request err)),
     {| w_store := st; w_calls := [CallGet k request] |}).
Proof.
  unfold input_fetch_error. intros Hfetch.
  apply Reconcile_returned. unfold dispatch.
  repeat case_bool_decide; [| |done].
  - destruct (fetch KProxy (st_proxies st) request) as [?|e] eqn:Hf; simplify_eq.
    unfold_body. simpl. rewrite Hf. simpl. by destruct (IsNotFound err).
  - destruct (fetch KConfigMap (st_configmaps st) request) as [?|e] eqn:Hf; simplify_eq.
    unfold_body. simpl. rewrite Hf. simpl. by destruct (IsNotFound err).
Qed.

(** C9.  On the proxy request, when one of httpProxy, httpsProxy and noProxy
    is set and [ValidateProxyConfig] refuses the spec, the switch returns an
    error: the invocation has read the proxy, called the validator and
    reported degraded once, with reason InvalidProxyConfig.  It never gets
    to the sync stage, and the store is as it was. *)
Theorem invalid_proxy_is_reported (st : Store) (spec : ProxySpec) (err : error) :
  st_proxies st !! names_Proxy = Some (Stored spec) ->
  isSpecHTTPProxySet spec || isSpecHTTPSProxySet spec || isSpecNoProxySet spec = true ->
  ext_ValidateProxyConfig spec st = Some err ->
  let outcome :=
    (Result_zero,
     Some (Errorf ("failed to validate proxy '" +:+ PROXY_CONFIG +:+ "': " +:+ Error err))) in
  let after :=
    {| w_store := st;
       w_calls := [CallGet KProxy names_Proxy;
                   CallValidateProxyConfig spec;
                   CallSetDegraded ProxyConfig "InvalidProxyConfig"
                     (invalid_configuration PROXY_CONFIG err)] |} in
  dispatch names_Proxy (init st) = (inr outcome, after) /\
  Reconcile names_Proxy (init st) = (outcome, after).
Proof.
  intros Hlook Hset Hinvalid outcome after.
  assert (dispatch names_Proxy (init st) = (inr outcome, after)) as Hswitch.
  { rewrite dispatch_proxy. unfold_body. simpl.
    rewrite (fetch_Stored _ _ _ _ Hlook). simpl.
    replace (negb (isSpecHTTPProxySet spec) && negb (isSpecHTTPSProxySet spec) &&
             negb (isSpecNoProxySet spec)) with false
      by (by destruct (isSpecHTTPProxySet spec), (isSpecHTTPSProxySet spec),
                      (isSpecNoProxySet spec)).
    simpl. by rewrite Hinvalid. }
  split; [done|]. by apply Reconcile_returned.
Qed.

Ltac solve_trace :=
  repeat match goal with
         | H : syncTrustedCABundle _ _ = _ |- _ =>
           apply sync_calls in H as (? & ? & ?); simpl in *
         end;
  repeat match goal with
         | H : w_calls _ = _ |- _ => rewrite H
         end;
  rewrite ?Forall_app;
  repeat split;
  repeat match goal with
         | |- Forall _ (_ :: _) => constructor; [done|]
         | |- Forall _ [] => constructor
         | H : Forall _ ?l |- Forall _ ?l =>
           eapply Forall_impl; [exact H|]; by intros []
         end.

(** C8.  When the cluster proxy has httpProxy, httpsProxy and noProxy all
    empty, no invocation of [Reconcile], for whatever request, calls
    [ValidateProxyConfig]; the other fields of the spec, readinessEndpoints
    among them, are arbitrary. *)
Theorem validation_is_skipped (st : Store) (request : Request) (spec : ProxySpec) :
  st_proxies st !! names_Proxy = Some (Stored spec) ->
  HTTPProxy spec = EmptyString ->
  HTTPSProxy spec = EmptyString ->
  NoProxy spec = EmptyString ->
  Forall (fun c => is_validator c = false) (w_calls (Reconcile request (init st)).2).
Proof.
  intros Hlook Hhttp Hhttps Hno.
  apply (fetch_Stored KProxy) in Hlook.
  unfold Reconcile, run, dispatch, bindB.
  case_bool_decide; [subst request|case_bool_decide].
  - unfold_body.
    unfold isSpecHTTPProxySet, isSpecHTTPSProxySet, isSpecNoProxySet in *.
    simpl. rewrite Hlook. simpl. rewrite Hhttp, Hhttps, Hno.
    crunch. all: solve_trace.
  - unfold_body.
    unfold isSpecHTTPProxySet, isSpecHTTPSProxySet, isSpecNoProxySet in *.
    crunch with (rewrite ?Hlook, ?Hhttp, ?Hhttps, ?Hno in * ).
    all: solve_trace.
  - simpl. constructor.
Qed.

Ltac same_fetch :=
  repeat match goal with
         | H : fetch ?k ?t ?key = _, H' : fetch ?k ?t ?key = _ |- _ =>
           rewrite H in H'; simplify_eq
         end.

(** C10.  In an invocation for a named ConfigMap of the
    additional-trust-bundle namespace, [validateSystemTrustBundle], which
    only [generateSystemTrustBundle] calls, is never called: once the
    admission check has passed, the proxy fetched again names a trustedCA,
    so the branch that generates the system bundle alone is not taken. *)
Theorem system_bundle_branch_unreachable (st : Store) (request : Request) :
  nn_Namespace request = ADDL_TRUST_BUNDLE_CONFIGMAP_NS ->
  nn_Name request <> EmptyString ->
  Forall (fun c => is_system_bundle c = false) (w_calls (Reconcile request (init st)).2).
Proof.
  intros Hns Hname.
  unfold Reconcile, run, bindB. rewrite dispatch_configmap by done.
  unfold_body. crunch with same_fetch.
  all: try (exfalso;
            repeat match goal with
                   | H : negb _ = true |- _ => apply negb_true_iff in H
                   | H : negb _ = false |- _ => apply negb_false_iff in H
                   | H : bool_decide _ = true |- _ => apply bool_decide_eq_true_1 in H
                   end;
            match goal with
            | H : ref_Name (TrustedCA ?p) = ?n, Hn : ?n <> EmptyString |- _ =>
              rewrite <- H in Hn; apply isSpecTrustedCASet_named in Hn
            end;
            congruence).
  all: solve_trace.
Qed.

End Reconciler.


(** * Further properties of the controller *)

(** ** More on the sync engine *)

(** The calls of a sync do not depend on what was called before. *)
Lemma sync_from_init (candidate : ConfigMap) (w : World) :
  syncTrustedCABundle candidate w =
    ((syncTrustedCABundle candidate (init (w_store w))).1,
     {| w_store := w_store (syncTrustedCABundle candidate (init (w_store w))).2;
        w_calls := w_calls w ++ w_calls (syncTrustedCABundle candidate (init (w_store w))).2 |}).
Proof.
  unfold_sync. destruct w as [st calls]. simpl.
  repeat (case_match; simpl in *; simplify_eq); rewrite <- ?app_assoc. all: done.
Qed.

(** X1.  A derived ConfigMap that exists with another value under the
    well-known key is brought up to date by one Update, without a Create,
    and then holds the candidate's data. *)
Theorem sync_updates_stale (st : Store) (candidate : ConfigMap)
    (data : gmap string string) :
  key_of candidate = names_TrustedCABundleConfigMap ->
  st_configmaps st !! names_TrustedCABundleConfigMap = Some (Stored data) ->
  default EmptyString (data !! TRUSTED_CA_BUNDLE_CONFIGMAP_KEY)
    <> Data_at TRUSTED_CA_BUNDLE_CONFIGMAP_KEY candidate ->
  st_write_fault st = None ->
  syncTrustedCABundle candidate (init st) =
    (None,
     {| w_store := set_configmaps
                     (insert names_TrustedCABundleConfigMap (Stored (cm_Data candidate))) st;
        w_calls := [CallGet KConfigMap names_TrustedCABundleConfigMap;
                    CallUpdate candidate] |}).
Proof.
  intros Hkey Hlook Hstale Hfault. unfold_sync. rewrite Hkey. simpl.
  rewrite Hlook. simpl.
  rewrite bool_decide_eq_false_2 by (unfold Data_at at 1; simpl; exact Hstale).
  simpl. by rewrite Hfault, Hlook.
Qed.

(** X2.  A sync is one Get, then at most one Create, then at most one
    Update, all of the candidate: the Create is issued exactly when the Get
    reports not-found, and a Get that fails otherwise is the only call. *)
Theorem sync_call_shapes (st : Store) (candidate : ConfigMap) :
  let calls := w_calls (syncTrustedCABundle candidate (init st)).2 in
  let get := CallGet KConfigMap names_TrustedCABundleConfigMap in
  match fetch KConfigMap (st_configmaps st) names_TrustedCABundleConfigMap with
  | inl _ => calls = [get] \/ calls = [get; CallUpdate candidate]
  | inr err =>
    if IsNotFound err
    then calls = [get; CallCreate candidate] \/
         calls = [get; CallCreate candidate; CallUpdate candidate]
    else calls = [get]
  end.
Proof.
  unfold_sync. simpl.
  repeat (case_match; simpl in *; simplify_eq); auto.
Qed.

(** X3.  Whatever its outcome, a sync leaves the store as it was except for
    the ConfigMap under the candidate's own key. *)
Theorem sync_touches_only_candidate (candidate : ConfigMap) (w : World) :
  same_but (key_of candidate) (w_store w)
    (w_store (syncTrustedCABundle candidate w).2).
Proof.
  unfold same_but. unfold_sync. unfold set_configmaps.
  repeat (case_match; simpl in *; simplify_eq); split_and!; try done.
  all: intros other Hother; simpl; by rewrite ?lookup_insert_ne by congruence.
Qed.

(** X4.  When the derived ConfigMap cannot be read, the sync gives up with
    the read error after the Get: nothing is created or updated. *)
Theorem sync_unreadable (st : Store) (candidate : ConfigMap) (msg : string) :
  st_configmaps st !! names_TrustedCABundleConfigMap = Some (Unreadable msg) ->
  syncTrustedCABundle candidate (init st) =
    (Some (Errorf ("failed to get trusted CA bundle configmap '"
                   +:+ cm_Namespace candidate +:+ "/" +:+ cm_Name candidate
                   +:+ "': " +:+ msg)),
     {| w_store := st;
        w_calls := [CallGet KConfigMap names_TrustedCABundleConfigMap] |}).
Proof.
  intros Hlook. unfold_sync. simpl. by rewrite Hlook.
Qed.

(** ** More on the merge *)

Section MoreMerge.
Context {ext : Externals}.

Lemma merge_inl (additional system : list byte) (merged : ConfigMap) :
  mergeTrustBundlesToConfigMap additional system = inl merged ->
  additional <> [] /\ system <> [] /\
  merged = trustBundleOf (additional ++ system) /\
  validateTrustBundle merged = None.
Proof.
  intros Hmerge.
  destruct additional as [|a additional]; [done|].
  destruct system as [|s system]; [by destruct (a :: additional)|].
  rewrite merge_nonempty in Hmerge by done.
  destruct (validateTrustBundle _) eqn:Hvalid; [done|].
  injection Hmerge as <-. done.
Qed.

(** X5.  Whatever ConfigMap the merge returns has passed
    [validateTrustBundle], sits at the derived identity, and holds a
    non-empty payload made of two non-empty bundles. *)
Theorem merge_returns_validated (additional system : list byte) (merged : ConfigMap) :
  mergeTrustBundlesToConfigMap additional system = inl merged ->
  validateTrustBundle merged = None /\
  key_of merged = names_TrustedCABundleConfigMap /\
  additional <> [] /\ system <> [] /\
  bundle_bytes merged = additional ++ system /\
  bundle_bytes merged <> [].
Proof.
  intros Hmerge.
  destruct (merge_inl _ _ _ Hmerge) as (Ha & Hs & -> & Hvalid).
  rewrite bundle_bytes_trustBundleOf.
  split_and!; try done.
  by destruct additional.
Qed.

(** X6.  Two non-empty bundles whose concatenation [validateTrustBundle]
    refuses are not merged: the result is an error that names the derived
    ConfigMap and carries the validator's message. *)
Theorem merge_rejects_invalid (additional system : list byte) (err : error) :
  additional <> [] ->
  system <> [] ->
  validateTrustBundle (trustBundleOf (additional ++ system)) = Some err ->
  mergeTrustBundlesToConfigMap additional system =
    inr (Errorf ("failed to validate merged configmap "
                 +:+ "'openshift-config-managed/trusted-ca-bundle': " +:+ Error err)).
Proof.
  intros Ha Hs Hinvalid. rewrite merge_nonempty by done. by rewrite Hinvalid.
Qed.

End MoreMerge.

(** ** More on the reconciler *)

Section Coverage.
Context {ext : Externals}.

#[local] Arguments String.append : simpl never.

Ltac unfold_run :=
  unfold reconcileProxy, reconcileConfigMap, syncStage, degraded,
    configMapIsProxyTrustedCA, generateSystemTrustBundle,
    ValidateProxyConfig, validateTrustedCA, validateSystemTrustBundle, syncProxyStatus,
    client_Get_Proxy, client_Get_ConfigMap, client_Get_Infrastructure, client_Get_Network,
    SetDegraded, SetNotDegraded,
    bindB, lift, proceed, Return, bind, call, read, update, ret, init in *.

Ltac same_answers :=
  repeat match goal with
         | H : ?x = inl _, H' : ?x = _ |- _ => rewrite H in H'; simplify_eq
         | H : ?x = inr _, H' : ?x = _ |- _ => rewrite H in H'; simplify_eq
         | H : negb _ = true |- _ => apply negb_true_iff in H
         | H : negb _ = false |- _ => apply negb_false_iff in H
         | H : bool_decide _ = true |- _ => apply bool_decide_eq_true_1 in H
         | H : bool_decide _ = false |- _ => apply bool_decide_eq_false_1 in H
         end.

Ltac paths := repeat (simpl in *; same_answers; simplify_eq; try case_match).

(** The three ways of the [switch]. *)
Lemma dispatch_cases (request : Request) :
  (request = names_Proxy /\ dispatch request = reconcileProxy names_Proxy) \/
  (nn_Namespace request = ADDL_TRUST_BUNDLE_CONFIGMAP_NS /\
   dispatch request = reconcileConfigMap request) \/
  (request <> names_Proxy /\
   nn_Namespace request <> ADDL_TRUST_BUNDLE_CONFIGMAP_NS /\
   dispatch request = Return Result_zero None).
Proof.
  unfold dispatch. repeat case_bool_decide; subst; auto.
Qed.

Lemma dispatch_desired (st : Store) (request : Request) c w :
  dispatch request (init st) = (inl c, w) -> desired st = Some c.
Proof.
  destruct (dispatch_cases request) as [[-> ->]|[[_ ->]|(_ & _ & ->)]]; intros Hrun.
  - by eapply reconcileProxy_desired.
  - by eapply reconcileConfigMap_desired.
  - done.
Qed.

Lemma desired_identity (st : Store) (c : ConfigMap) :
  desired st = Some c ->
  key_of c = names_TrustedCABundleConfigMap /\
  expected_bytes st = Some (bundle_bytes c).
Proof.
  unfold desired, expected_bytes. intros Hdesired.
  repeat (case_match; simplify_eq).
  - destruct (merge_inl _ _ _ H2) as (_ & _ & -> & _).
    by rewrite bundle_bytes_trustBundleOf.
  - by rewrite bundle_bytes_trustBundleOf.
Qed.

(** What [Reconcile] does once the [switch] is through. *)
Lemma Reconcile_after_switch (st : Store) (request : Request) :
  match dispatch request (init st) with
  | (inr out, w) => Reconcile request (init st) = (out, w)
  | (inl c, w) =>
    exists r w1 calls,
      syncTrustedCABundle c w = (r, w1) /\
      w_calls w1 = w_calls w ++ calls /\
      Forall (fun call => call = CallGet KConfigMap names_TrustedCABundleConfigMap \/
                          call = CallCreate c \/ call = CallUpdate c) calls /\
      exists report,
        is_health report = true /\
        match report with
        | CallSetDegraded _ reason _ => is_Some r /\ reason = "TrustBundleSyncFailure"
        | _ => r = None /\ report = CallSetNotDegraded ProxyConfig
        end /\
        exists err,
          (is_Some err <-> is_Some r) /\
          Reconcile request (init st) =
            ((Result_zero, err),
             {| w_store := w_store w1; w_calls := w_calls w1 ++ [report] |})
  end.
Proof.
  unfold Reconcile, run, bindB.
  destruct (dispatch request (init st)) as [[c|out] w]; [|done].
  pose proof (sync_call_shapes (w_store w) c) as Hshape.
  unfold syncStage, degraded, bindB, lift, Return, SetDegraded, SetNotDegraded, call.
  rewrite (sync_from_init c w).
  destruct (syncTrustedCABundle c (init (w_store w))) as [r w1] eqn:Hsync.
  simpl in *.
  eexists r, _, (w_calls w1). split_and!; [done|done| |].
  - repeat case_match; try destruct Hshape as [Hshape|Hshape];
      rewrite Hshape; repeat first [apply Forall_nil_2 | apply Forall_cons_2]; auto.
  - destruct r as [err|]; simpl.
    + eexists (CallSetDegraded _ _ _). split; [reflexivity|].
      split; [split; [by eexists|reflexivity]|].
      eexists (Some _). split; [split; intros _; by eexists|reflexivity].
    + exists (CallSetNotDegraded ProxyConfig). split; [reflexivity|].
      split; [done|].
      exists None. split; [split; intros [? ?]; done|reflexivity].
Qed.

Ltac literal_trace :=
  repeat first [ apply Forall_nil_2 | apply Forall_cons_2; [done|] ].

(** The [switch] never creates or updates a ConfigMap. *)
Lemma dispatch_writes_nothing (st : Store) (request : Request) r w :
  dispatch request (init st) = (r, w) ->
  Forall (fun c => is_store_write c = false) (w_calls w).
Proof.
  destruct (dispatch_cases request) as [[-> ->]|[[_ ->]|(_ & _ & ->)]]; intros Hrun.
  - unfold_run. paths. all: literal_trace.
  - unfold_run. paths. all: literal_trace.
  - unfold Return in Hrun. simplify_eq. constructor.
Qed.

(** A [switch] that falls through has reported nothing; one that returns
    has reported at most once, as its last call, and then with an error. *)
Lemma dispatch_reports (st : Store) (request : Request) r w :
  dispatch request (init st) = (r, w) ->
  match r with
  | inl _ => quiet (w_calls w)
  | inr out =>
    reports_once out (w_calls w) /\
    match last (w_calls w) with
    | Some (CallSetNotDegraded _) => False
    | _ => True
    end
  end.
Proof.
  unfold reports_once, quiet.
  destruct (dispatch_cases request) as [[-> ->]|[[_ ->]|(_ & _ & ->)]]; intros Hrun.
  - unfold_run. paths.
    all: repeat split; try (by eexists); literal_trace.
  - unfold_run. paths.
    all: repeat split; try (by eexists); literal_trace.
  - unfold Return in Hrun. simplify_eq. simpl. split; [constructor|done].
Qed.

(** X7.  Every ConfigMap an invocation creates or updates is the derived
    one, openshift-config-managed/trusted-ca-bundle; the watch filter turns
    such an object down, so the controller's own writes never come back to
    it as ConfigMap events. *)
Theorem writes_only_derived (st : Store) (request : Request) :
  Forall (fun call =>
            match call with
            | CallCreate obj | CallUpdate obj =>
              key_of obj = names_TrustedCABundleConfigMap /\
              handleConfigMap (meta_of obj) = false
            | _ => True
            end)
    (w_calls (Reconcile request (init st)).2).
Proof.
  pose proof (Reconcile_after_switch st request) as Hafter.
  destruct (dispatch request (init st)) as [[c|out] w] eqn:Hswitch.
  - destruct Hafter as (r & w1 & calls & _ & Hcalls & Hshape & report & Hreport & _
                        & err & _ & ->).
    simpl. rewrite Hcalls.
    apply dispatch_desired in Hswitch as Hdesired.
    apply desired_identity in Hdesired as [Hkey _].
    apply dispatch_writes_nothing in Hswitch.
    rewrite !Forall_app. split_and!.
    + eapply Forall_impl; [exact Hswitch|]. by intros [].
    + eapply Forall_impl; [exact Hshape|].
      intros call [->|[->| ->]]; [done| |]; split; try done.
      all: destruct c as [ns name data]; unfold key_of in Hkey; simpl in Hkey.
      all: by injection Hkey as -> ->.
    + apply Forall_cons_2; [|constructor]. by destruct report.
  - rewrite Hafter. simpl.
    apply dispatch_writes_nothing in Hswitch.
    eapply Forall_impl; [exact Hswitch|]. by intros [].
Qed.

Lemma quiet_clients (calls : list Call) (c : ConfigMap) :
  Forall (fun call => call = CallGet KConfigMap names_TrustedCABundleConfigMap \/
                      call = CallCreate c \/ call = CallUpdate c) calls ->
  quiet calls.
Proof.
  intros H. eapply Forall_impl; [exact H|]. by intros call [->|[->| ->]].
Qed.

(** X8.  An invocation reports to the status manager at most once, and
    then as its last call: degraded always comes with an error for the
    caller, not-degraded with none. *)
Theorem reconcile_reports_once (st : Store) (request : Request) :
  reports_once (Reconcile request (init st)).1 (w_calls (Reconcile request (init st)).2).
Proof.
  pose proof (Reconcile_after_switch st request) as Hafter.
  destruct (dispatch request (init st)) as [[c|out] w] eqn:Hswitch.
  - destruct Hafter as (r & w1 & calls & _ & Hcalls & Hshape & report & Hreport & Hkind
                        & err & Herr & ->).
    apply dispatch_reports in Hswitch. apply quiet_clients in Hshape.
    unfold reports_once. simpl. rewrite last_snoc, removelast_last, Hcalls.
    assert (quiet (w_calls w ++ calls)) as Hquiet by by apply Forall_app.
    destruct report; try done.
    + destruct Hkind as [Hr _]. by split; [apply Herr|].
    + destruct Hkind as [-> _]. split; [|done].
      destruct err as [e|]; [|done]. by destruct (proj1 Herr (mk_is_Some _ _ eq_refl)).
  - rewrite Hafter. simpl. by apply dispatch_reports in Hswitch as [? _].
Qed.

(** X9.  When an invocation has been through the sync stage and returns no
    error, the derived ConfigMap exists and holds, under the well-known
    key, the bytes the validation helpers gave for the store the invocation
    started from: referenced bundle then system bundle, or the system bundle
    alone.  Its last call reported not-degraded. *)
Theorem reconcile_success_stores_bundle (st : Store) (request : Request)
    (c : ConfigMap) (w w' : World) :
  dispatch request (init st) = (inl c, w) ->
  Reconcile request (init st) = ((Result_zero, None), w') ->
  exists data,
    st_configmaps (w_store w') !! names_TrustedCABundleConfigMap = Some (Stored data) /\
    expected_bytes st =
      Some (String.list_byte_of_string
              (default EmptyString (data !! TRUSTED_CA_BUNDLE_CONFIGMAP_KEY))) /\
    last (w_calls w') = Some (CallSetNotDegraded ProxyConfig).
Proof.
  intros Hswitch Hrun.
  pose proof (Reconcile_after_switch st request) as Hafter. rewrite Hswitch in Hafter.
  destruct Hafter as (r & w1 & calls & Hsync & _ & _ & report & Hreport & Hkind
                      & err & Herr & Hrun').
  rewrite Hrun in Hrun'. injection Hrun' as <- ->.
  assert (r = None) as ->.
  { destruct r as [e|]; [|done]. by destruct (proj2 Herr (mk_is_Some _ _ eq_refl)). }
  apply dispatch_desired in Hswitch. apply desired_identity in Hswitch as [Hkey Hbytes].
  rewrite sync_from_init in Hsync. injection Hsync as Hfirst <-. simpl.
  destruct (syncTrustedCABundle c (init (w_store w))) as [r0 w0] eqn:Hsync.
  simpl in *. subst r0.
  destruct (sync_success_state _ _ _ Hkey Hsync) as (data & Hlook & Hsame).
  exists data. split_and!; [done| |].
  - rewrite Hbytes. unfold bundle_bytes. by rewrite Hsame.
  - rewrite last_snoc. destruct report; try done.
    + destruct Hkind as [Hsome _]. by destruct Hsome.
    + destruct Hkind as [_ Heq]. by rewrite Heq.
Qed.

(** X10.  A ConfigMap trigger met by a proxy that cannot be fetched, for
    whatever reason, is skipped like a mismatch: success, nothing reported,
    nothing written. *)
Theorem admission_swallows_proxy_errors (st : Store) (request : Request)
    (data : gmap string string) (err : error) :
  nn_Namespace request = ADDL_TRUST_BUNDLE_CONFIGMAP_NS ->
  fetch KConfigMap (st_configmaps st) request = inl data ->
  fetch KProxy (st_proxies st) names_Proxy = inr err ->
  Reconcile request (init st) =
    ((Result_zero, None),
     {| w_store := st;
        w_calls := [CallGet KConfigMap request; CallGet KProxy names_Proxy] |}).
Proof.
  intros Hns Hcm Hproxy.
  apply Reconcile_returned. rewrite dispatch_configmap by done.
  unfold_run. simpl. rewrite Hcm. simpl. by rewrite Hproxy.
Qed.

Lemma reconcileConfigMap_reasons (st : Store) (request : Request) r w :
  nn_Name request <> EmptyString ->
  reconcileConfigMap request (init st) = (r, w) ->
  Forall (fun call =>
            match call with
            | CallSetDegraded _ reason _ => In reason configmap_reasons
            | _ => True
            end) (w_calls w).
Proof.
  intros Hname Hrun. unfold_run. paths.
  all: try (exfalso;
            match goal with
            | H : ref_Name (TrustedCA ?p) = ?n, Hn : ?n <> EmptyString |- _ =>
              rewrite <- H in *; apply isSpecTrustedCASet_named in Hn
            end;
            congruence).
  all: repeat first [ apply Forall_nil_2 | apply Forall_cons_2; [simpl; by auto 6|] ].
Qed.

(** X11.  An invocation for a named ConfigMap of the
    additional-trust-bundle namespace reports degraded under four reason
    codes only.  The codes of the second resolution in that branch,
    ProxyCAMergeFailure and GenerateConfigMapFailure, never occur: what was
    validated and merged before the proxy was fetched again validates and
    merges again. *)
Theorem configmap_branch_reasons (st : Store) (request : Request) :
  nn_Namespace request = ADDL_TRUST_BUNDLE_CONFIGMAP_NS ->
  nn_Name request <> EmptyString ->
  Forall (fun call =>
            match call with
            | CallSetDegraded _ reason _ => In reason configmap_reasons
            | _ => True
            end)
    (w_calls (Reconcile request (init st)).2).
Proof.
  intros Hns Hname.
  pose proof (Reconcile_after_switch st request) as Hafter.
  destruct (dispatch request (init st)) as [[c|out] w] eqn:Hswitch.
  - destruct Hafter as (r & w1 & calls & _ & Hcalls & Hshape & report & _ & Hkind
                        & err & _ & ->).
    simpl. rewrite Hcalls. rewrite dispatch_configmap in Hswitch by done.
    rewrite !Forall_app. split_and!.
    + by eapply reconcileConfigMap_reasons.
    + eapply Forall_impl; [exact Hshape|]. by intros call [->|[->| ->]].
    + apply Forall_cons_2; [|constructor].
      destruct report; try done. destruct Hkind as [_ ->]. simpl. auto.
  - rewrite Hafter. simpl. rewrite dispatch_configmap in Hswitch by done.
    by eapply reconcileConfigMap_reasons.
Qed.

(** X12.  On the proxy request the sync stage is entered only after the
    infrastructure config, the network config and the cluster-config-v1
    ConfigMap have been read and [syncProxyStatus] has returned without
    error; the status sync is the last call before the sync stage, which
    works on the store the status sync left. *)
Theorem proxy_sync_needs_status (st : Store) (c : ConfigMap) (w : World) :
  dispatch names_Proxy (init st) = (inl c, w) ->
  exists spec data,
    let cluster := {| nn_Namespace := EmptyString; nn_Name := CLUSTER_CONFIG |} in
    let proxy := {| proxy_Name := PROXY_CONFIG; proxy_Spec := spec |} in
    fetch KProxy (st_proxies st) names_Proxy = inl spec /\
    fetch KInfrastructure (st_infrastructures st) cluster = inl tt /\
    fetch KNetwork (st_networks st) cluster = inl tt /\
    fetch KConfigMap (st_configmaps st)
      {| nn_Namespace := "kube-system"; nn_Name := "cluster-config-v1" |} = inl data /\
    ext_syncProxyStatus proxy {| infra_Name := CLUSTER_CONFIG |}
      {| net_Name := CLUSTER_CONFIG |}
      {| cm_Namespace := "kube-system"; cm_Name := "cluster-config-v1"; cm_Data := data |}
      st = (None, w_store w) /\
    last (w_calls w) = Some (CallSyncProxyStatus proxy).
Proof.
  rewrite dispatch_proxy. intros Hrun. unfold_run. paths.
  all: repeat match goal with u : unit |- _ => destruct u end.
  all: eexists _, _; split_and!; done.
Qed.

Lemma reconcileConfigMap_reads_only (st : Store) (request : Request) r w :
  reconcileConfigMap request (init st) = (r, w) -> w_store w = st.
Proof. intros Hrun. unfold_run. paths. all: done. Qed.

Lemma same_but_refl (key : NamespacedName) (st : Store) : same_but key st st.
Proof. by unfold same_but. Qed.

(** X13.  An invocation for a ConfigMap of the additional-trust-bundle
    namespace changes nothing in the store but the derived ConfigMap: the
    proxy, the source ConfigMaps and everything else stay as they are. *)
Theorem configmap_trigger_store_frame (st : Store) (request : Request) :
  nn_Namespace request = ADDL_TRUST_BUNDLE_CONFIGMAP_NS ->
  same_but names_TrustedCABundleConfigMap st
    (w_store (Reconcile request (init st)).2).
Proof.
  intros Hns.
  pose proof (Reconcile_after_switch st request) as Hafter.
  destruct (dispatch request (init st)) as [[c|out] w] eqn:Hswitch.
  - destruct Hafter as (r & w1 & calls & Hsync & _ & _ & report & _ & _ & err & _ & ->).
    simpl.
    apply dispatch_desired in Hswitch as Hdesired.
    apply desired_identity in Hdesired as [Hkey _].
    rewrite dispatch_configmap in Hswitch by done.
    apply reconcileConfigMap_reads_only in Hswitch.
    pose proof (sync_touches_only_candidate c w) as Hframe.
    by rewrite Hsync, Hkey, Hswitch in Hframe.
  - rewrite Hafter. simpl. rewrite dispatch_configmap in Hswitch by done.
    apply reconcileConfigMap_reads_only in Hswitch. rewrite Hswitch.
    apply same_but_refl.
Qed.

Lemma dispatch_validator (st : Store) (request : Request) r w :
  dispatch request (init st) = (r, w) ->
  List.filter is_validator (w_calls w) = [] \/
  exists spec,
    fetch KProxy (st_proxies st) names_Proxy = inl spec /\
    isSpecHTTPProxySet spec || isSpecHTTPSProxySet spec || isSpecNoProxySet spec = true /\
    List.filter is_validator (w_calls w) = [CallValidateProxyConfig spec].
Proof.
  destruct (dispatch_cases request) as [[-> ->]|[[_ ->]|(_ & _ & ->)]]; intros Hrun.
  - unfold_run. paths.
    all: first [ by left | right; eexists; split_and!; [done| |done] ].
    all: by destruct (isSpecHTTPProxySet _), (isSpecHTTPSProxySet _), (isSpecNoProxySet _).
  - unfold_run. paths.
    all: first [ by left | right; eexists; split_and!; [done| |done] ].
    all: by destruct (isSpecHTTPProxySet _), (isSpecHTTPSProxySet _), (isSpecNoProxySet _).
  - unfold Return in Hrun. simplify_eq. by left.
Qed.

Lemma filter_validator_clients (calls : list Call) (c : ConfigMap) :
  Forall (fun call => call = CallGet KConfigMap names_TrustedCABundleConfigMap \/
                      call = CallCreate c \/ call = CallUpdate c) calls ->
  List.filter is_validator calls = [].
Proof.
  induction 1 as [|call calls Hcall _ IH]; [done|].
  simpl. by destruct Hcall as [->|[->| ->]].
Qed.

(** X14.  [ValidateProxyConfig] is called at most once in an invocation,
    and then on the spec of the cluster proxy as stored, which has one of
    httpProxy, httpsProxy and noProxy set. *)
Theorem validator_called_at_most_once (st : Store) (request : Request) :
  let calls := List.filter is_validator (w_calls (Reconcile request (init st)).2) in
  calls = [] \/
  exists spec,
    fetch KProxy (st_proxies st) names_Proxy = inl spec /\
    isSpecHTTPProxySet spec || isSpecHTTPSProxySet spec || isSpecNoProxySet spec = true /\
    calls = [CallValidateProxyConfig spec].
Proof.
  pose proof (Reconcile_after_switch st request) as Hafter.
  destruct (dispatch request (init st)) as [[c|out] w] eqn:Hswitch.
  - destruct Hafter as (r & w1 & calls & _ & Hcalls & Hshape & report & Hreport & _
                        & err & _ & ->).
    simpl. rewrite Hcalls, !List.filter_app.
    rewrite (filter_validator_clients _ _ Hshape).
    replace (List.filter is_validator [report]) with (@nil Call)
      by (by destruct report).
    rewrite !app_nil_r. by eapply dispatch_validator.
  - rewrite Hafter. simpl. by eapply dispatch_validator.
Qed.

Lemma dispatch_validates_reference (st : Store) (request : Request) r w :
  dispatch request (init st) = (r, w) ->
  Forall (fun call =>
            match call with
            | CallValidateTrustedCA name =>
              exists spec, fetch KProxy (st_proxies st) names_Proxy = inl spec /\
                           ref_Name (TrustedCA spec) = name
            | _ => True
            end) (w_calls w).
Proof.
  destruct (dispatch_cases request) as [[-> ->]|[[_ ->]|(_ & _ & ->)]]; intros Hrun.
  - unfold_run. paths.
    all: repeat first [ apply Forall_nil_2 | apply Forall_cons_2; [by eauto|] ].
  - unfold_run. paths.
    all: repeat first [ apply Forall_nil_2 | apply Forall_cons_2; [by eauto|] ].
  - unfold Return in Hrun. simplify_eq. constructor.
Qed.

(** X15.  The only ConfigMap an invocation ever hands to
    [validateTrustedCA] is the one the stored proxy's trustedCA names, on
    either trigger. *)
Theorem validates_only_the_reference (st : Store) (request : Request) :
  Forall (fun call =>
            match call with
            | CallValidateTrustedCA name =>
              exists spec, fetch KProxy (st_proxies st) names_Proxy = inl spec /\
                           ref_Name (TrustedCA spec) = name
            | _ => True
            end)
    (w_calls (Reconcile request (init st)).2).
Proof.
  pose proof (Reconcile_after_switch st request) as Hafter.
  destruct (dispatch request (init st)) as [[c|out] w] eqn:Hswitch.
  - destruct Hafter as (r & w1 & calls & _ & Hcalls & Hshape & report & Hreport & _
                        & err & _ & ->).
    simpl. rewrite Hcalls, !Forall_app. split_and!.
    + by eapply dispatch_validates_reference.
    + eapply Forall_impl; [exact Hshape|]. by intros call [->|[->| ->]].
    + apply Forall_cons_2; [|constructor]. by destruct report.
  - rewrite Hafter. simpl. by eapply dispatch_validates_reference.
Qed.

(** X16.  Every event the ConfigMap watch lets through is handled by the
    ConfigMap branch of [Reconcile]: the request queued for the object the
    filter looked at is neither taken for the proxy nor ignored. *)
Theorem watch_filter_routes (e : Event) :
  pred e = true ->
  dispatch (request_for (subject e)) = reconcileConfigMap (request_for (subject e)).
Proof.
  intros Hpred. apply dispatch_configmap.
  destruct e; simpl in *; by apply bool_decide_eq_true_1 in Hpred.
Qed.

(** X17.  A request that is neither the cluster proxy nor in the
    additional-trust-bundle namespace, such as a proxy under another name,
    is ignored: success, without any call, whatever was called before. *)
Theorem unknown_object_is_ignored (request : Request) (w : World) :
  request <> names_Proxy ->
  nn_Namespace request <> ADDL_TRUST_BUNDLE_CONFIGMAP_NS ->
  Reconcile request w = ((Result_zero, None), w).
Proof.
  intros Hproxy Hns. unfold Reconcile, run, bindB, dispatch.
  by rewrite !bool_decide_eq_false_2.
Qed.


Lemma dispatch_errors_reported (st : Store) (request : Request) out w :
  dispatch request (init st) = (inr out, w) ->
  is_Some out.2 ->
  (exists k, w_calls w = [CallGet k request]) \/
  (exists reason message,
     last (w_calls w) = Some (CallSetDegraded ProxyConfig reason message)).
Proof.
  destruct (dispatch_cases request) as [[-> ->]|[[_ ->]|(_ & _ & ->)]];
    intros Hrun [e He].
  - unfold_run. paths. all: first [ by left; eexists | by right; eexists _, _ ].
  - unfold_run. paths. all: first [ by left; eexists | by right; eexists _, _ ].
  - unfold Return in Hrun. by simplify_eq.
Qed.

(** X20.  An error is returned without a degraded report in one case only,
    when the very first fetch of the invocation failed; every other error
    comes right after a degraded report.  In particular the ConfigMap
    branch never fails on its second fetch of the proxy. *)
Theorem errors_are_reported (st : Store) (request : Request) (e : error) :
  (Reconcile request (init st)).1.2 = Some e ->
  (exists k, w_calls (Reconcile request (init st)).2 = [CallGet k request]) \/
  (exists reason message,
     last (w_calls (Reconcile request (init st)).2)
       = Some (CallSetDegraded ProxyConfig reason message)).
Proof.
  pose proof (Reconcile_after_switch st request) as Hafter.
  destruct (dispatch request (init st)) as [[c|out] w] eqn:Hswitch.
  - destruct Hafter as (r & w1 & calls & _ & _ & _ & report & Hreport & Hkind
                        & err & Herr & ->).
    simpl. intros ->. right. rewrite last_snoc.
    destruct report as [| | |[] reason message| | | | |]; try done.
    + by eexists _, _.
    + destruct Hkind as [-> _]. by destruct (proj1 Herr (mk_is_Some _ _ eq_refl)).
  - rewrite Hafter. simpl. intros He.
    eapply dispatch_errors_reported; [done|by eexists].
Qed.

End Coverage.

(** ** Set-up *)

Section MoreSetup.
Context {Client Scheme StatusManager : Type}.


End MoreSetup.
(** * The properties at work on the concrete cluster *)

#[local] Existing Instance Demo.ext.

(** Scenario A: the first sync of the system bundle on the fresh cluster
    succeeds, and the second is a lone Get. *)
Lemma sync_idempotent_witness :
  let first := syncTrustedCABundle (Demo.candidate "SYSTEM-CERT") (init Demo.fresh) in
  (key_of (Demo.candidate "SYSTEM-CERT") = names_TrustedCABundleConfigMap /\
   first = (None, first.2)) /\
  syncTrustedCABundle (Demo.candidate "SYSTEM-CERT") (init (w_store first.2)) =
    (None, {| w_store := w_store first.2;
              w_calls := [CallGet KConfigMap names_TrustedCABundleConfigMap] |}).
Proof.
  assert (key_of (Demo.candidate "SYSTEM-CERT") = names_TrustedCABundleConfigMap) as Hkey
    by reflexivity.
  assert (syncTrustedCABundle (Demo.candidate "SYSTEM-CERT") (init Demo.fresh) =
          (None, (syncTrustedCABundle (Demo.candidate "SYSTEM-CERT") (init Demo.fresh)).2))
    as Hfirst by (vm_compute; reflexivity).
  split; [split; [exact Hkey | exact Hfirst]|].
  exact (proj2 (sync_idempotent Demo.fresh (Demo.candidate "SYSTEM-CERT") _ Hkey Hfirst)).
Defined.

(** Scenario B, the merge: custom bytes first, system bytes last. *)
Lemma merge_is_concatenation_witness :
  let additional := String.list_byte_of_string "CUSTOM-CERT" in
  (additional <> [] /\ Demo.system_bytes <> [] /\
   validateTrustBundle (trustBundleOf (additional ++ Demo.system_bytes)) = None) /\
  exists merged,
    mergeTrustBundlesToConfigMap additional Demo.system_bytes = inl merged /\
    key_of merged = names_TrustedCABundleConfigMap /\
    bundle_bytes merged = additional ++ Demo.system_bytes /\
    additional `prefix_of` bundle_bytes merged /\
    Demo.system_bytes `suffix_of` bundle_bytes merged.
Proof.
  assert (String.list_byte_of_string "CUSTOM-CERT" <> []) as Ha by (vm_compute; discriminate).
  assert (Demo.system_bytes <> []) as Hs by (vm_compute; discriminate).
  split; [split_and!; [exact Ha | exact Hs | reflexivity]|].
  exact (merge_is_concatenation (ext := Demo.ext) _ _ Ha Hs eq_refl).
Defined.


(** A trigger for other-ca while the proxy refers to custom-ca. *)
Lemma reference_mismatch_is_noop_witness :
  let request := Demo.source "other-ca" in
  let spec := Demo.with_trustedCA "custom-ca" Demo.spec0 in
  (nn_Namespace request = ADDL_TRUST_BUNDLE_CONFIGMAP_NS /\
   st_configmaps Demo.custom !! request
     = Some (Stored {[ TRUSTED_CA_BUNDLE_CONFIGMAP_KEY := "OTHER-CERT" ]}) /\
   st_proxies Demo.custom !! names_Proxy = Some (Stored spec) /\
   ref_Name (TrustedCA spec) <> nn_Name request) /\
  Reconcile request (init Demo.custom) =
    ((Result_zero, None),
     {| w_store := Demo.custom;
        w_calls := [CallGet KConfigMap request; CallGet KProxy names_Proxy] |}).
Proof.
  assert (st_configmaps Demo.custom !! Demo.source "other-ca"
            = Some (Stored {[ TRUSTED_CA_BUNDLE_CONFIGMAP_KEY := "OTHER-CERT" ]}))
    as Hcm by (vm_compute; reflexivity).
  assert (st_proxies Demo.custom !! names_Proxy
            = Some (Stored (Demo.with_trustedCA "custom-ca" Demo.spec0)))
    as Hproxy by (vm_compute; reflexivity).
  assert (ref_Name (TrustedCA (Demo.with_trustedCA "custom-ca" Demo.spec0))
            <> nn_Name (Demo.source "other-ca"))
    as Hne by (vm_compute; discriminate).
  split; [split_and!; [reflexivity | exact Hcm | exact Hproxy | exact Hne]|].
  exact (reference_mismatch_is_noop Demo.custom (Demo.source "other-ca") _ _
           eq_refl Hcm Hproxy (or_introl Hne)).
Defined.

(** A deleted proxy is skipped; an unreadable source ConfigMap is an error. *)
Lemma input_fetch_failure_outcome_witness :
  (input_fetch_error Demo.no_proxy names_Proxy
     = Some (KProxy, NewNotFound KProxy names_Proxy) /\
   Reconcile names_Proxy (init Demo.no_proxy) =
     ((Result_zero, None),
      {| w_store := Demo.no_proxy; w_calls := [CallGet KProxy names_Proxy] |})) /\
  (input_fetch_error Demo.unreadable (Demo.source "custom-ca")
     = Some (KConfigMap, Errorf "etcdserver: request timed out") /\
   Reconcile (Demo.source "custom-ca") (init Demo.unreadable) =
     ((Result_zero,
       Some (Errorf ("failed to get configmap 'openshift-config/custom-ca': "
                     +:+ "etcdserver: request timed out"))),
      {| w_store := Demo.unreadable;
         w_calls := [CallGet KConfigMap (Demo.source "custom-ca")] |})).
Proof.
  assert (input_fetch_error Demo.no_proxy names_Proxy
            = Some (KProxy, NewNotFound KProxy names_Proxy))
    as Hgone by (vm_compute; reflexivity).
  assert (input_fetch_error Demo.unreadable (Demo.source "custom-ca")
            = Some (KConfigMap, Errorf "etcdserver: request timed out"))
    as Hfault by (vm_compute; reflexivity).
  split; split.
  - exact Hgone.
  - exact (input_fetch_failure_outcome Demo.no_proxy names_Proxy _ _ Hgone).
  - exact Hfault.
  - exact (input_fetch_failure_outcome Demo.unreadable (Demo.source "custom-ca") _ _ Hfault).
Defined.

(** A malformed readiness endpoint goes unnoticed when no proxy is set, on
    either trigger. *)
Lemma validation_is_skipped_witness :
  (st_proxies Demo.endpoints !! names_Proxy = Some (Stored Demo.spec_endpoints) /\
   HTTPProxy Demo.spec_endpoints = EmptyString /\
   HTTPSProxy Demo.spec_endpoints = EmptyString /\
   NoProxy Demo.spec_endpoints = EmptyString) /\
  Forall (fun c => is_validator c = false)
    (w_calls (Reconcile names_Proxy (init Demo.endpoints)).2) /\
  Forall (fun c => is_validator c = false)
    (w_calls (Reconcile (Demo.source "custom-ca") (init Demo.endpoints)).2).
Proof.
  assert (st_proxies Demo.endpoints !! names_Proxy = Some (Stored Demo.spec_endpoints))
    as Hproxy by (vm_compute; reflexivity).
  split; [split_and!; [exact Hproxy | reflexivity | reflexivity | reflexivity]|].
  split.
  - exact (validation_is_skipped Demo.endpoints names_Proxy _ Hproxy eq_refl eq_refl eq_refl).
  - exact (validation_is_skipped Demo.endpoints (Demo.source "custom-ca") _
             Hproxy eq_refl eq_refl eq_refl).
Defined.

(** Scenario C: httpProxy is not a URL. *)
Lemma invalid_proxy_is_reported_witness :
  let spec := Demo.with_httpProxy "not-a-url" Demo.spec0 in
  let err := Errorf "invalid httpProxy URI" in
  (st_proxies Demo.malformed !! names_Proxy = Some (Stored spec) /\
   isSpecHTTPProxySet spec || isSpecHTTPSProxySet spec || isSpecNoProxySet spec = true /\
   ext_ValidateProxyConfig spec Demo.malformed = Some err) /\
  Reconcile names_Proxy (init Demo.malformed) =
    ((Result_zero,
      Some (Errorf "failed to validate proxy 'cluster': invalid httpProxy URI")),
     {| w_store := Demo.malformed;
        w_calls := [CallGet KProxy names_Proxy;
                    CallValidateProxyConfig spec;
                    CallSetDegraded ProxyConfig "InvalidProxyConfig"
                      (invalid_configuration PROXY_CONFIG err)] |}).
Proof.
  assert (st_proxies Demo.malformed !! names_Proxy
            = Some (Stored (Demo.with_httpProxy "not-a-url" Demo.spec0)))
    as Hproxy by (vm_compute; reflexivity).
  split; [split_and!; [exact Hproxy | reflexivity | reflexivity]|].
  exact (proj2 (invalid_proxy_is_reported Demo.malformed _ _ Hproxy eq_refl eq_refl)).
Defined.

(** The trigger of custom-ca runs through the admission check and never asks
    for the system bundle alone. *)
Lemma system_bundle_branch_unreachable_witness :
  (nn_Namespace (Demo.source "custom-ca") = ADDL_TRUST_BUNDLE_CONFIGMAP_NS /\
   nn_Name (Demo.source "custom-ca") <> EmptyString) /\
  Forall (fun c => is_system_bundle c = false)
    (w_calls (Reconcile (Demo.source "custom-ca") (init Demo.custom)).2).
Proof.
  assert (nn_Name (Demo.source "custom-ca") <> EmptyString) as Hname
    by (vm_compute; discriminate).
  split; [split; [reflexivity | exact Hname]|].
  exact (system_bundle_branch_unreachable Demo.custom (Demo.source "custom-ca")
           eq_refl Hname).
Defined.

(** * The further properties at work *)

(** Scenario D: the stale bundle is replaced by one Update. *)
Lemma sync_updates_stale_witness :
  let candidate := Demo.candidate "SYSTEM-CERT" in
  let old : gmap string string := {[ TRUSTED_CA_BUNDLE_CONFIGMAP_KEY := "OLD-CERT" ]} in
  (key_of candidate = names_TrustedCABundleConfigMap /\
   st_configmaps Cases.stale !! names_TrustedCABundleConfigMap = Some (Stored old) /\
   default EmptyString (old !! TRUSTED_CA_BUNDLE_CONFIGMAP_KEY)
     <> Data_at TRUSTED_CA_BUNDLE_CONFIGMAP_KEY candidate /\
   st_write_fault Cases.stale = None) /\
  w_calls (syncTrustedCABundle candidate (init Cases.stale)).2 =
    [CallGet KConfigMap names_TrustedCABundleConfigMap; CallUpdate candidate].
Proof.
  assert (st_configmaps Cases.stale !! names_TrustedCABundleConfigMap
            = Some (Stored {[ TRUSTED_CA_BUNDLE_CONFIGMAP_KEY := "OLD-CERT" ]}))
    as Hlook by (vm_compute; reflexivity).
  assert (default EmptyString
            (({[ TRUSTED_CA_BUNDLE_CONFIGMAP_KEY := "OLD-CERT" ]} : gmap string string)
               !! TRUSTED_CA_BUNDLE_CONFIGMAP_KEY)
            <> Data_at TRUSTED_CA_BUNDLE_CONFIGMAP_KEY (Demo.candidate "SYSTEM-CERT"))
    as Hstale by (vm_compute; discriminate).
  split; [split_and!; [reflexivity | exact Hlook | exact Hstale | reflexivity]|].
  exact (f_equal (fun r => w_calls r.2)
           (sync_updates_stale Cases.stale (Demo.candidate "SYSTEM-CERT") _
              eq_refl Hlook Hstale eq_refl)).
Defined.

(** An unreadable derived ConfigMap is left alone. *)
Lemma sync_unreadable_witness :
  st_configmaps Cases.derived_unreadable !! names_TrustedCABundleConfigMap
    = Some (Unreadable "etcdserver: request timed out") /\
  w_calls (syncTrustedCABundle (Demo.candidate "SYSTEM-CERT")
             (init Cases.derived_unreadable)).2 =
    [CallGet KConfigMap names_TrustedCABundleConfigMap].
Proof.
  assert (st_configmaps Cases.derived_unreadable !! names_TrustedCABundleConfigMap
            = Some (Unreadable "etcdserver: request timed out"))
    as Hlook by (vm_compute; reflexivity).
  split; [exact Hlook|].
  exact (f_equal (fun r => w_calls r.2)
           (sync_unreadable Cases.derived_unreadable (Demo.candidate "SYSTEM-CERT") _ Hlook)).
Defined.

(** A merge that went through was validated. *)
Lemma merge_returns_validated_witness :
  let additional := String.list_byte_of_string "CUSTOM-CERT" in
  mergeTrustBundlesToConfigMap additional Demo.system_bytes
    = inl (Demo.candidate "CUSTOM-CERTSYSTEM-CERT") /\
  bundle_bytes (Demo.candidate "CUSTOM-CERTSYSTEM-CERT") <> [].
Proof.
  assert (mergeTrustBundlesToConfigMap (String.list_byte_of_string "CUSTOM-CERT")
            Demo.system_bytes = inl (Demo.candidate "CUSTOM-CERTSYSTEM-CERT"))
    as Hmerge by (vm_compute; reflexivity).
  split; [exact Hmerge|].
  exact (proj2 (proj2 (proj2 (proj2 (proj2
           (merge_returns_validated (ext := Demo.ext) _ _ _ Hmerge)))))).
Defined.

(** Two bundles without a PEM header are refused by the strict validator. *)
Lemma merge_rejects_invalid_witness :
  let additional := String.list_byte_of_string "not a cert" in
  (additional <> [] /\ Demo.system_bytes <> [] /\
   validateTrustBundle (Externals := Cases.strict)
     (trustBundleOf (additional ++ Demo.system_bytes))
     = Some (Errorf "failed parsing certificate")) /\
  mergeTrustBundlesToConfigMap (ext := Cases.strict) additional Demo.system_bytes =
    inr (Errorf ("failed to validate merged configmap "
                 +:+ "'openshift-config-managed/trusted-ca-bundle': "
                 +:+ "failed parsing certificate")).
Proof.
  assert (String.list_byte_of_string "not a cert" <> []) as Ha by (vm_compute; discriminate).
  assert (Demo.system_bytes <> []) as Hs by (vm_compute; discriminate).
  assert (validateTrustBundle (Externals := Cases.strict)
            (trustBundleOf (String.list_byte_of_string "not a cert" ++ Demo.system_bytes))
            = Some (Errorf "failed parsing certificate"))
    as Hinvalid by (vm_compute; reflexivity).
  split; [split_and!; [exact Ha | exact Hs | exact Hinvalid]|].
  exact (merge_rejects_invalid (ext := Cases.strict) _ _ _ Ha Hs Hinvalid).
Defined.

(** Scenario B end to end: after the ConfigMap trigger the derived ConfigMap
    holds the custom bundle followed by the system bundle. *)
Lemma reconcile_success_stores_bundle_witness :
  let request := Demo.source "custom-ca" in
  let switch := dispatch request (init Demo.custom) in
  let run := Reconcile request (init Demo.custom) in
  (switch = (inl (Demo.candidate "CUSTOM-CERTSYSTEM-CERT"), switch.2) /\
   run = ((Result_zero, None), run.2)) /\
  exists data,
    st_configmaps (w_store run.2) !! names_TrustedCABundleConfigMap = Some (Stored data) /\
    expected_bytes Demo.custom =
      Some (String.list_byte_of_string
              (default EmptyString (data !! TRUSTED_CA_BUNDLE_CONFIGMAP_KEY))) /\
    last (w_calls run.2) = Some (CallSetNotDegraded ProxyConfig).
Proof.
  assert (dispatch (Demo.source "custom-ca") (init Demo.custom) =
          (inl (Demo.candidate "CUSTOM-CERTSYSTEM-CERT"),
           (dispatch (Demo.source "custom-ca") (init Demo.custom)).2))
    as Hswitch by (vm_compute; reflexivity).
  assert (Reconcile (Demo.source "custom-ca") (init Demo.custom) =
          ((Result_zero, None), (Reconcile (Demo.source "custom-ca") (init Demo.custom)).2))
    as Hrun by (vm_compute; reflexivity).
  split; [split; [exact Hswitch | exact Hrun]|].
  exact (reconcile_success_stores_bundle Demo.custom (Demo.source "custom-ca")
           _ _ _ Hswitch Hrun).
Defined.

(** A ConfigMap trigger while the proxy cannot be read. *)
Lemma admission_swallows_proxy_errors_witness :
  let request := Demo.source "custom-ca" in
  (nn_Namespace request = ADDL_TRUST_BUNDLE_CONFIGMAP_NS /\
   fetch KConfigMap (st_configmaps Cases.proxy_unreadable) request
     = inl {[ TRUSTED_CA_BUNDLE_CONFIGMAP_KEY := "CUSTOM-CERT" ]} /\
   fetch KProxy (st_proxies Cases.proxy_unreadable) names_Proxy
     = inr (Errorf "etcdserver: request timed out")) /\
  Reconcile request (init Cases.proxy_unreadable) =
    ((Result_zero, None),
     {| w_store := Cases.proxy_unreadable;
        w_calls := [CallGet KConfigMap request; CallGet KProxy names_Proxy] |}).
Proof.
  assert (fetch KConfigMap (st_configmaps Cases.proxy_unreadable) (Demo.source "custom-ca")
            = inl {[ TRUSTED_CA_BUNDLE_CONFIGMAP_KEY := "CUSTOM-CERT" ]})
    as Hcm by (vm_compute; reflexivity).
  assert (fetch KProxy (st_proxies Cases.proxy_unreadable) names_Proxy
            = inr (Errorf "etcdserver: request timed out"))
    as Hproxy by (vm_compute; reflexivity).
  split; [split_and!; [reflexivity | exact Hcm | exact Hproxy]|].
  exact (admission_swallows_proxy_errors Cases.proxy_unreadable (Demo.source "custom-ca")
           _ _ eq_refl Hcm Hproxy).
Defined.

(** The ConfigMap trigger of Scenario B reports nothing but success. *)
Lemma configmap_branch_reasons_witness :
  let request := Demo.source "custom-ca" in
  (nn_Namespace request = ADDL_TRUST_BUNDLE_CONFIGMAP_NS /\
   nn_Name request <> EmptyString) /\
  Forall (fun call =>
            match call with
            | CallSetDegraded _ reason _ => In reason configmap_reasons
            | _ => True
            end)
    (w_calls (Reconcile request (init Demo.custom)).2).
Proof.
  assert (nn_Name (Demo.source "custom-ca") <> EmptyString) as Hname
    by (vm_compute; discriminate).
  split; [split; [reflexivity | exact Hname]|].
  exact (configmap_branch_reasons Demo.custom (Demo.source "custom-ca") eq_refl Hname).
Defined.

(** Scenario B, proxy trigger: the status sync precedes the sync stage. *)
Lemma proxy_sync_needs_status_witness :
  let switch := dispatch names_Proxy (init Demo.custom) in
  switch = (inl (Demo.candidate "CUSTOM-CERTSYSTEM-CERT"), switch.2) /\
  exists spec data,
    fetch KProxy (st_proxies Demo.custom) names_Proxy = inl spec /\
    fetch KInfrastructure (st_infrastructures Demo.custom)
      {| nn_Namespace := EmptyString; nn_Name := CLUSTER_CONFIG |} = inl tt /\
    fetch KNetwork (st_networks Demo.custom)
      {| nn_Namespace := EmptyString; nn_Name := CLUSTER_CONFIG |} = inl tt /\
    fetch KConfigMap (st_configmaps Demo.custom)
      {| nn_Namespace := "kube-system"; nn_Name := "cluster-config-v1" |} = inl data /\
    ext_syncProxyStatus {| proxy_Name := PROXY_CONFIG; proxy_Spec := spec |}
      {| infra_Name := CLUSTER_CONFIG |} {| net_Name := CLUSTER_CONFIG |}
      {| cm_Namespace := "kube-system"; cm_Name := "cluster-config-v1"; cm_Data := data |}
      Demo.custom = (None, w_store switch.2) /\
    last (w_calls switch.2)
      = Some (CallSyncProxyStatus {| proxy_Name := PROXY_CONFIG; proxy_Spec := spec |}).
Proof.
  assert (dispatch names_Proxy (init Demo.custom) =
          (inl (Demo.candidate "CUSTOM-CERTSYSTEM-CERT"),
           (dispatch names_Proxy (init Demo.custom)).2))
    as Hswitch by (vm_compute; reflexivity).
  split; [exact Hswitch|].
  exact (proxy_sync_needs_status Demo.custom _ _ Hswitch).
Defined.

(** Scenario B, ConfigMap trigger: only the derived ConfigMap changes. *)
Lemma configmap_trigger_store_frame_witness :
  nn_Namespace (Demo.source "custom-ca") = ADDL_TRUST_BUNDLE_CONFIGMAP_NS /\
  same_but names_TrustedCABundleConfigMap Demo.custom
    (w_store (Reconcile (Demo.source "custom-ca") (init Demo.custom)).2).
Proof.
  split; [reflexivity|].
  exact (configmap_trigger_store_frame Demo.custom (Demo.source "custom-ca") eq_refl).
Defined.

(** The creation of custom-ca goes to the ConfigMap branch. *)
Lemma watch_filter_routes_witness :
  pred Cases.custom_ca_created = true /\
  dispatch (request_for (subject Cases.custom_ca_created))
    = reconcileConfigMap (request_for (subject Cases.custom_ca_created)).
Proof.
  split; [reflexivity|].
  exact (watch_filter_routes Cases.custom_ca_created eq_refl).
Defined.

(** A proxy named other is ignored. *)
Lemma unknown_object_is_ignored_witness :
  (Cases.other_proxy <> names_Proxy /\
   nn_Namespace Cases.other_proxy <> ADDL_TRUST_BUNDLE_CONFIGMAP_NS) /\
  Reconcile Cases.other_proxy (init Demo.custom) = ((Result_zero, None), init Demo.custom).
Proof.
  assert (Cases.other_proxy <> names_Proxy) as Hproxy by (vm_compute; discriminate).
  assert (nn_Namespace Cases.other_proxy <> ADDL_TRUST_BUNDLE_CONFIGMAP_NS) as Hns
    by (vm_compute; discriminate).
  split; [split; [exact Hproxy | exact Hns]|].
  exact (unknown_object_is_ignored Cases.other_proxy (init Demo.custom) Hproxy Hns).
Defined.


(** A missing infrastructure config is an error that was reported. *)
Lemma errors_are_reported_witness :
  let run := Reconcile names_Proxy (init Cases.no_infrastructure) in
  run.1.2 = Some (Errorf ("failed to get infrastructure config 'cluster': "
                          +:+ "infrastructures.config.openshift.io 'cluster' not found")) /\
  ((exists k, w_calls run.2 = [CallGet k names_Proxy]) \/
   (exists reason message,
      last (w_calls run.2) = Some (CallSetDegraded ProxyConfig reason message))).
Proof.
  assert ((Reconcile names_Proxy (init Cases.no_infrastructure)).1.2 =
          Some (Errorf ("failed to get infrastructure config 'cluster': "
                        +:+ "infrastructures.config.openshift.io 'cluster' not found")))
    as Herr by (vm_compute; reflexivity).
  split; [exact Herr|].
  exact (errors_are_reported Cases.no_infrastructure names_Proxy _ Herr).
Defined.
